(** * PromptCage client: a shallow embedding of the TypeScript sources

    The client class [PromptCage] (constructor, [detectInjection],
    [generateCanaryWord], [addCanaryWord], [isCanaryWordLeaked]) is embedded
    as Rocq functions over a small model of JavaScript values. The class is
    taken from the current [index.ts] (the one with the canary methods);
    the constructor of the first release, which also accepts a bare API key
    string, is kept in module [V1].

    - JavaScript strings are [string]; a character stands for one code unit,
      and every string operation used by the client ([includes], [replace],
      [slice], concatenation) works code unit by code unit.
    - JavaScript numbers are restricted to the integers ([Z]): status codes,
      lengths and millisecond counts. Fractions and the exponent notation
      of very large numbers are outside the model; [NaN] is modelled where
      a number is an argument ([JsNumber]). The sizes the runtime refuses
      (more than 2^31 - 1 random bytes, a string longer than 0x1fffffe8
      characters) are modelled; running out of memory is not.
    - A synchronous call yields a [Completion] (normal value or thrown
      value). A promise is [Fulfilled], [Rejected] or [Pending] for ever;
      the body of an async function returns, throws or waits for ever at
      an [await] ([Async]).
    - The network is an oracle from requests to promises of responses; the
      random source is an infinite supply of bytes threaded through the
      calls that draw from it.
    - The wording of the errors raised by the runtime itself ([TypeError],
      [RangeError]) follows current Node; no claim depends on
      it. *)

From Stdlib Require Import ZArith List String Ascii Bool Lia DecimalString.
From Stdlib.Strings Require Import Byte.
Import ListNotations.
Local Open Scope string_scope.
Local Open Scope Z_scope.

(** ** JavaScript values *)

Module Js.

#[warnings="-register-all"]
Inductive JsValue : Type :=
| JUndefined
| JNull
| JBool (b : bool)
| JNum (z : Z)
| JStr (s : string)
| JArr (items : list JsValue)
| JObj (props : list (string * JsValue))
| JError (name message : string)
| JOpaque (thrown : JsValue).

(** [JOpaque thrown] is an object that [JSON.stringify] refuses: it holds
    a cycle or a [BigInt], or its [toJSON] throws; [thrown] is what the
    serialisation throws. *)

(** [ToBoolean]: what [!v], [v || w] and [v && w] test. *)
Definition toBoolean (v : JsValue) : bool :=
  match v with
  | JUndefined | JNull => false
  | JBool b => b
  | JNum z => negb (z =? 0)
  | JStr s => negb (s =? EmptyString)%string
  | JArr _ | JObj _ | JError _ _ | JOpaque _ => true
  end.

Definition typeof (v : JsValue) : string :=
  match v with
  | JUndefined => "undefined"
  | JBool _ => "boolean"
  | JNum _ => "number"
  | JStr _ => "string"
  | JNull | JArr _ | JObj _ | JError _ _ | JOpaque _ => "object"
  end.

(** [a || b] *)
Definition or_else (a b : JsValue) : JsValue :=
  if toBoolean a then a else b.

(** Outcome of evaluating synchronous code. *)
Inductive Completion (A : Type) : Type :=
| Normal (a : A)
| Throw (e : JsValue).
Arguments Normal {A} a.
Arguments Throw {A} e.

(** [try { body } catch (error) { handler }] *)
Definition try_catch {A} (body : Completion A)
           (handler : JsValue -> Completion A) : Completion A :=
  match body with
  | Normal a => Normal a
  | Throw e => handler e
  end.

(** A promise, by the state it ends in: fulfilled, rejected, or pending
    for ever. *)
Inductive Promise (A : Type) : Type :=
| Fulfilled (a : A)
| Rejected (e : JsValue)
| Pending.
Arguments Fulfilled {A} a.
Arguments Rejected {A} e.
Arguments Pending {A}.

(** The body of an async function: it completes, or it waits for ever at
    an [await]. *)
Inductive Async (A : Type) : Type :=
| Completes (c : Completion A)
| WaitsForEver.
Arguments Completes {A} c.
Arguments WaitsForEver {A}.

(** [await p] inside an async function. *)
Definition await {A} (p : Promise A) : Async A :=
  match p with
  | Fulfilled a => Completes (Normal a)
  | Rejected e => Completes (Throw e)
  | Pending => WaitsForEver
  end.

(** Sequencing inside an async function. *)
Definition then_ {A B} (c : Async A) (k : A -> Async B) : Async B :=
  match c with
  | Completes (Normal a) => k a
  | Completes (Throw e) => Completes (Throw e)
  | WaitsForEver => WaitsForEver
  end.

(** [try { body } catch (error) { handler }] inside an async function: a
    body that waits for ever never reaches the handler. *)
Definition try_catch_async {A} (body : Async A)
           (handler : JsValue -> Async A) : Async A :=
  match body with
  | Completes (Normal a) => Completes (Normal a)
  | Completes (Throw e) => handler e
  | WaitsForEver => WaitsForEver
  end.

(** The promise returned by an async function whose body behaves as [c]. *)
Definition async {A} (c : Async A) : Promise A :=
  match c with
  | Completes (Normal a) => Fulfilled a
  | Completes (Throw e) => Rejected e
  | WaitsForEver => Pending
  end.

(** What [JSON.stringify(v)] throws, if it throws: the values are visited
    in property order, depth first, and the first refusal wins. A
    property holding [undefined] is skipped, and an error object has no
    enumerable property. *)
Fixpoint stringify_error (v : JsValue) : option JsValue :=
  match v with
  | JOpaque thrown => Some thrown
  | JArr items =>
      (fix first_error (l : list JsValue) : option JsValue :=
         match l with
         | [] => None
         | x :: rest =>
             match stringify_error x with
             | Some e => Some e
             | None => first_error rest
             end
         end) items
  | JObj props =>
      (fix first_error (l : list (string * JsValue)) : option JsValue :=
         match l with
         | [] => None
         | (_, x) :: rest =>
             match stringify_error x with
             | Some e => Some e
             | None => first_error rest
             end
         end) props
  | JUndefined | JNull | JBool _ | JNum _ | JStr _ | JError _ _ => None
  end.

(** Property read [v.key], for the keys the client reads. Objects carry
    each own property once; reading from [null] or [undefined] throws a
    [TypeError]; the other values have no such property besides those of
    an error object. *)
Fixpoint lookup (key : string) (props : list (string * JsValue))
  : JsValue :=
  match props with
  | [] => JUndefined
  | (k, v) :: rest => if (k =? key)%string then v else lookup key rest
  end.

Definition get (v : JsValue) (key : string) : Completion JsValue :=
  match v with
  | JUndefined =>
      Throw (JError "TypeError"
        ("Cannot read properties of undefined (reading '" ++ key ++ "')"))
  | JNull =>
      Throw (JError "TypeError"
        ("Cannot read properties of null (reading '" ++ key ++ "')"))
  | JObj props => Normal (lookup key props)
  | JError name message =>
      Normal (if (key =? "name")%string then JStr name
              else if (key =? "message")%string then JStr message
              else JUndefined)
  | JBool _ | JNum _ | JStr _ | JArr _ | JOpaque _ => Normal JUndefined
  end.

(** Template-literal conversion of an (integer) number. *)
Definition number_to_string (z : Z) : string :=
  NilZero.string_of_int (Z.to_int z).

(** *** Strings *)

(** [hay.indexOf(needle)] *)
Fixpoint indexOf (needle hay : string) : option nat :=
  if prefix needle hay then Some O
  else match hay with
       | EmptyString => None
       | String _ rest => option_map S (indexOf needle rest)
       end.

(** [hay.includes(needle)] *)
Definition includes (hay needle : string) : bool :=
  match indexOf needle hay with
  | Some _ => true
  | None => false
  end.

Fixpoint take (n : nat) (s : string) : string :=
  match n, s with
  | S n', String c rest => String c (take n' rest)
  | _, _ => EmptyString
  end.

Fixpoint drop (n : nat) (s : string) : string :=
  match n, s with
  | S n', String _ rest => drop n' rest
  | _, _ => s
  end.

(** [s.slice(start, finish)]: negative positions count from the end, and
    both are clamped to the string. *)
Definition slice (s : string) (start finish : Z) : string :=
  let len := Z.of_nat (String.length s) in
  let clamp p := if p <? 0 then Z.max (len + p) 0 else Z.min p len in
  let from := clamp start in
  let to := clamp finish in
  take (Z.to_nat (to - from)) (drop (Z.to_nat from) s).

(** [GetSubstitution] of ECMA-262 for a string pattern (no capture groups):
    in the replacement text, [$$] stands for a dollar sign, [$&] for the
    matched text, [$`] for the text before the match and [$'] for the text
    after it; every other character, a lone dollar sign included, stands
    for itself. *)
Fixpoint getSubstitution (matched before after template : string) : string :=
  match template with
  | EmptyString => EmptyString
  | String c rest =>
      if (c =? "$")%char then
        match rest with
        | String d rest' =>
            if (d =? "$")%char then
              String "$" (getSubstitution matched before after rest')
            else if (d =? "&")%char then
              matched ++ getSubstitution matched before after rest'
            else if (d =? "`")%char then
              before ++ getSubstitution matched before after rest'
            else if (d =? "'")%char then
              after ++ getSubstitution matched before after rest'
            else String c (getSubstitution matched before after rest)
        | EmptyString => String c EmptyString
        end
      else String c (getSubstitution matched before after rest)
  end.

(** [s.replace(pattern, replacement)] with a string pattern: only the first
    occurrence is replaced. *)
Definition replace (s pattern replacement : string) : string :=
  match indexOf pattern s with
  | None => s
  | Some i =>
      let before := take i s in
      let after := drop (i + String.length pattern) s in
      before ++ getSubstitution pattern before after replacement ++ after
  end.

End Js.
Import Js.

(** ** Data model *)

(** [Response from the PromptCage API detection endpoint]. At run time the
    fields hold whatever the parsed body held, hence [JsValue]; an absent
    [error] is [JUndefined]. *)
Record DetectionResponse : Type := {
  safe : JsValue;
  detectionId : JsValue;
  error : JsValue
}.

(** [PromptCageOptions]: every field is optional. *)
Record PromptCageOptions : Type := {
  opt_apiKey : option string;
  opt_maxWaitTime : option Z;
  opt_defaultCanaryLength : option Z;
  opt_defaultCanaryFormat : option string
}.

(** [CanaryLeakageResult]; [checkError] is the optional [error] field. *)
Record CanaryLeakageResult : Type := {
  leaked : bool;
  canaryWord : JsValue;
  checkError : option string
}.

(** The private fields of a [PromptCage] instance. *)
Record PromptCage : Type := {
  apiKey : string;
  baseUrl : string;
  maxWaitTime : Z;
  defaultCanaryLength : Z;
  defaultCanaryFormat : string
}.

(** *** The network *)

(** What [fetch] is called with. [body] is the object that
    [JSON.stringify] has serialised (a request exists only when that
    succeeded); [signalDeadline] is the delay after which the abort
    controller behind [signal] fires, unless the timer is cleared first. *)
Record Request : Type := {
  url : string;
  method : string;
  headers : list (string * string);
  body : JsValue;
  signalDeadline : Z
}.

(** What the client reads from a response: [ok], [status], and the promises
    returned by [text()] and [json()]. The body is read after the abort
    timer has been cleared, so nothing ends a body that never arrives:
    those promises may stay [Pending]. *)
Record Response : Type := {
  ok : bool;
  status : Z;
  text : Promise string;
  json : Promise JsValue
}.

(** [fetch]: for each request, the state its promise ends in. A request
    aborted at the deadline is rejected with an error named [AbortError];
    [Pending] is a [fetch] that does not honour the abort signal. *)
Definition Fetch : Type := Request -> Promise Response.

(** *** The random source *)

(** [crypto]'s generator: an endless supply of bytes. *)
Definition Entropy : Type := nat -> byte.

(** A number passed as an argument: an integer or [NaN]. *)
Inductive JsNumber : Type :=
| Num (z : Z)
| NaN.

Definition dquote : string := String (ascii_of_nat 34) EmptyString.

(** Three decimal digits, zero padded. *)
Definition three_digits (z : Z) : string :=
  let d := number_to_string z in
  if z <? 10 then "00" ++ d else if z <? 100 then "0" ++ d else d.

(** Node's [addNumericalSeparator] on a non-negative integer: groups of
    three digits from the right, joined by underscores. *)
Fixpoint grouped (fuel : nat) (z : Z) : string :=
  match fuel with
  | O => number_to_string z
  | S fuel' =>
      if z <? 1000 then number_to_string z
      else grouped fuel' (z / 1000) ++ "_" ++ three_digits (z mod 1000)
  end.

(** How Node's [ERR_OUT_OF_RANGE] prints the value received: integers
    above 2^32 in magnitude get numerical separators. *)
Definition received (z : Z) : string :=
  if 2 ^ 32 <? Z.abs z then
    (if z <? 0 then "-" else EmptyString)
      ++ grouped (Z.to_nat (Z.log2 (Z.abs z))) (Z.abs z)
  else number_to_string z.

(** The largest size [crypto.randomBytes] accepts, and the longest string
    the runtime builds ([buffer.constants.MAX_STRING_LENGTH], 0x1fffffe8,
    on the 64-bit Node releases the package is built for). *)
Definition kMaxInt32 : Z := 2 ^ 31 - 1.
Definition MAX_STRING_LENGTH : Z := 536870888.

Definition range_error (size : Z) : JsValue :=
  JError "RangeError"
    ("The value of " ++ dquote ++ "size" ++ dquote
       ++ " is out of range. It must be >= 0 && <= 2147483647. Received "
       ++ received size).

Definition string_too_long : JsValue :=
  JError "Error" "Cannot create a string longer than 0x1fffffe8 characters".

(** [crypto.randomBytes(size)]: [size] fresh bytes; a size that is
    negative or above 2^31 - 1 is refused before a byte is drawn. *)
Definition randomBytes (size : Z) (rng : Entropy)
  : Completion (list byte) * Entropy :=
  if (size <? 0) || (kMaxInt32 <? size) then (Throw (range_error size), rng)
  else
    let n := Z.to_nat size in
    (Normal (map rng (seq 0 n)), fun i => rng (n + i)%nat).

Definition hexDigit (n : N) : ascii :=
  match n with
  | 0%N => "0" | 1%N => "1" | 2%N => "2" | 3%N => "3"
  | 4%N => "4" | 5%N => "5" | 6%N => "6" | 7%N => "7"
  | 8%N => "8" | 9%N => "9" | 10%N => "a" | 11%N => "b"
  | 12%N => "c" | 13%N => "d" | 14%N => "e" | _ => "f"
  end%char.

(** The hexadecimal text of a buffer: two lowercase digits per byte, high
    nibble first. *)
Fixpoint toHex (bytes : list byte) : string :=
  match bytes with
  | [] => EmptyString
  | b :: rest =>
      let n := Byte.to_N b in
      String (hexDigit (n / 16)) (String (hexDigit (n mod 16)) (toHex rest))
  end.

(** [buffer.toString('hex')]: the text above, unless it would be longer
    than the runtime allows. *)
Definition toString_hex (bytes : list byte) : Completion string :=
  if MAX_STRING_LENGTH <? 2 * Z.of_nat (List.length bytes)
  then Throw string_too_long
  else Normal (toHex bytes).

(** [Math.ceil(n / 2)] *)
Definition ceil_half (n : Z) : Z := - ((- n) / 2).

Definition newline : string := String (ascii_of_nat 10) EmptyString.

(** ** The client *)

(** [v || d] for an optional number and for an optional string. *)
Definition number_or (v : option Z) (d : Z) : Z :=
  match v with
  | Some z => if z =? 0 then d else z
  | None => d
  end.

(** [v || d] for a number argument: [0] and [NaN] are falsy. *)
Definition argument_or (v : option JsNumber) (d : Z) : Z :=
  match v with
  | Some (Num z) => if z =? 0 then d else z
  | Some NaN | None => d
  end.

Definition string_or (v : option string) (d : string) : string :=
  match v with
  | Some s => if (s =? EmptyString)%string then d else s
  | None => d
  end.

(** [options?.field] *)
Definition optional {A B} (options : option A) (field : A -> option B)
  : option B :=
  match options with
  | Some o => field o
  | None => None
  end.

Definition api_key_required : JsValue :=
  JError "Error"
    "API key is required. Set PROMPTCAGE_API_KEY environment variable or pass it to the constructor.".

(** [new PromptCage(options)], with [env] standing for [process.env]. *)
Definition constructor (options : option PromptCageOptions)
           (env : string -> option string) : Completion PromptCage :=
  let apiKey :=
    string_or (optional options opt_apiKey)
      (string_or (env "PROMPTCAGE_API_KEY") EmptyString) in
  let maxWaitTime := number_or (optional options opt_maxWaitTime) 1000 in
  let defaultCanaryLength :=
    number_or (optional options opt_defaultCanaryLength) 8 in
  let defaultCanaryFormat :=
    string_or (optional options opt_defaultCanaryFormat)
      "<!-- {canary_word} -->" in
  if (apiKey =? EmptyString)%string then Throw api_key_required
  else Normal {| apiKey := apiKey;
                 baseUrl := "https://promptcage.com/api/v1";
                 maxWaitTime := maxWaitTime;
                 defaultCanaryLength := defaultCanaryLength;
                 defaultCanaryFormat := defaultCanaryFormat |}.

(** The guard [!v || typeof v !== 'string'] shared by the methods: [None]
    when it fires, and the string itself when [v] passes it. *)
Definition nonEmptyString (v : JsValue) : option string :=
  if negb (toBoolean v) || negb (typeof v =? "string")%string then None
  else match v with
       | JStr s => Some s
       | _ => None
       end.

Definition invalid_prompt : JsValue :=
  JError "Error" "Prompt must be a non-empty string".

(** [...(v && { key: v })] inside an object literal. *)
Definition spread_if (key : string) (v : JsValue)
  : list (string * JsValue) :=
  if toBoolean v then [(key, v)] else [].

(** The [catch] block of [detectInjection]. *)
Definition detectInjection_catch (this : PromptCage) (err : JsValue)
  : Completion DetectionResponse :=
  match err with
  | JError name message =>
      if (name =? "AbortError")%string then
        Normal {| safe := JBool true;
                  detectionId := JStr EmptyString;
                  error := JStr ("Request exceeded max wait time of "
                                   ++ number_to_string (maxWaitTime this)
                                   ++ "ms") |}
      else
        Normal {| safe := JBool true;
                  detectionId := JStr EmptyString;
                  error := JStr message |}
  | _ =>
      Normal {| safe := JBool true;
                detectionId := JStr EmptyString;
                error := JStr "Unknown error occurred" |}
  end.

(** The [try] block of [detectInjection], from the awaited [fetch] on. *)
Definition detectInjection_try (fetched : Promise Response)
  : Async DetectionResponse :=
  then_ (await fetched) (fun response =>
  if negb (ok response) then
    then_ (await (text response)) (fun errorText =>
    Completes (Normal
      {| safe := JBool true;
         detectionId := JStr EmptyString;
         error := JStr ("API request failed with status "
                          ++ number_to_string (status response)
                          ++ ": " ++ errorText) |}))
  else
    then_ (await (json response)) (fun data =>
    then_ (Completes (get data "safe")) (fun data_safe =>
    then_ (Completes (get data "detectionId")) (fun data_detectionId =>
    then_ (Completes (get data "error")) (fun data_error =>
    Completes (Normal
      {| safe := or_else data_safe (JBool false);
         detectionId := or_else data_detectionId (JStr EmptyString);
         error := data_error |})))))).

(** The call [fetch(url, init)] that [detectInjection] makes once the
    body is serialised. *)
Definition detect_request (this : PromptCage)
           (prompt userAnonId metadata : JsValue) : Request :=
  let requestBody :=
    JObj ([("prompt", prompt)]
            ++ spread_if "userAnonId" userAnonId
            ++ spread_if "metadata" metadata) in
  {| url := baseUrl this ++ "/detect";
     method := "POST";
     headers := [("Authorization", "Bearer " ++ apiKey this);
                 ("Content-Type", "application/json")];
     body := requestBody;
     signalDeadline := maxWaitTime this |}.

(** [detectInjection(prompt, userAnonId, metadata)]: the promise it returns
    and the requests it sent. An omitted argument is [JUndefined]. Inside
    the [try] block the arguments of [fetch] are evaluated first: when
    [JSON.stringify(requestBody)] throws, [fetch] is not called and the
    catch clause receives what was thrown. The abort timer is cleared as
    soon as [fetch] has answered, before the body is read. *)
Definition detectInjection (this : PromptCage) (fetch : Fetch)
           (prompt userAnonId metadata : JsValue)
  : Promise DetectionResponse * list Request :=
  match nonEmptyString prompt with
  | None => (async (Completes (Throw invalid_prompt)), [])
  | Some _ =>
      let request := detect_request this prompt userAnonId metadata in
      let handler := fun err => Completes (detectInjection_catch this err) in
      match stringify_error (body request) with
      | Some thrown =>
          (async (try_catch_async (Completes (Throw thrown)) handler), [])
      | None =>
          (async (try_catch_async (detectInjection_try (fetch request))
                                  handler),
           [request])
      end
  end.

(** [generateCanaryWord(length)]: [length || this.defaultCanaryLength]
    hexadecimal characters cut from [Math.ceil(canaryLength / 2)] random
    bytes. *)
Definition generateCanaryWord (this : PromptCage)
           (length : option JsNumber) (rng : Entropy)
  : Completion string * Entropy :=
  let canaryLength := argument_or length (defaultCanaryLength this) in
  match randomBytes (ceil_half canaryLength) rng with
  | (Normal bytes, rng') =>
      match toString_hex bytes with
      | Normal hex => (Normal (slice hex 0 canaryLength), rng')
      | Throw e => (Throw e, rng')
      end
  | (Throw e, rng') => (Throw e, rng')
  end.

(** [addCanaryWord(prompt, canaryWord, canaryFormat)]: the pair
    [[promptWithCanary, canary]]. A canary word is drawn from the random
    source only when none (or an empty one) is supplied. *)
Definition addCanaryWord (this : PromptCage) (prompt : JsValue)
           (canaryWord canaryFormat : option string) (rng : Entropy)
  : Completion (string * string) * Entropy :=
  match nonEmptyString prompt with
  | None => (Throw invalid_prompt, rng)
  | Some prompt =>
      let generated :=
        match canaryWord with
        | Some w =>
            if (w =? EmptyString)%string then generateCanaryWord this None rng
            else (Normal w, rng)
        | None => generateCanaryWord this None rng
        end in
      match generated with
      | (Throw e, rng') => (Throw e, rng')
      | (Normal canary, rng') =>
          let format := string_or canaryFormat (defaultCanaryFormat this) in
          let canaryComment := replace format "{canary_word}" canary in
          let promptWithCanary := canaryComment ++ newline ++ prompt in
          (Normal (promptWithCanary, canary), rng')
      end
  end.

(** [isCanaryWordLeaked(completion, canaryWord)]: the body of the [try]
    block, then the method with its [catch]. *)
Definition isCanaryWordLeaked_try (completion canaryWord : JsValue)
  : Completion CanaryLeakageResult :=
  match nonEmptyString completion with
  | None =>
      Normal {| leaked := false;
                canaryWord := canaryWord;
                checkError := Some "Completion must be a non-empty string" |}
  | Some completion =>
      match nonEmptyString canaryWord with
      | None =>
          Normal {| leaked := false;
                    canaryWord := or_else canaryWord (JStr EmptyString);
                    checkError :=
                      Some "Canary word must be a non-empty string" |}
      | Some word =>
          Normal {| leaked := includes completion word;
                    canaryWord := canaryWord;
                    checkError := None |}
      end
  end.

Definition isCanaryWordLeaked (completion canaryWord : JsValue)
  : Completion CanaryLeakageResult :=
  try_catch (isCanaryWordLeaked_try completion canaryWord)
    (fun err =>
       Normal {| leaked := false;
                 canaryWord := or_else canaryWord (JStr EmptyString);
                 checkError :=
                   Some match err with
                        | JError _ message => message
                        | _ => "Unknown error occurred during canary check"
                        end |}).

(** ** The first release of the constructor

    The earlier [index.ts] accepts either an API key string or an options
    object with [apiKey] and [maxWaitTime] only; its [detectInjection] is
    the one above, word for word. *)
Module V1.

Inductive ConstructorArg : Type :=
| KeyString (key : string)
| Options (options : option PromptCageOptions).

Definition constructor (arg : ConstructorArg)
           (env : string -> option string) : Completion (string * Z) :=
  let '(apiKey, maxWaitTime) :=
    match arg with
    | KeyString key => (key, 1000)
    | Options options =>
        (string_or (optional options opt_apiKey)
           (string_or (env "PROMPTCAGE_API_KEY") EmptyString),
         number_or (optional options opt_maxWaitTime) 1000)
    end in
  if (apiKey =? EmptyString)%string then Throw api_key_required
  else Normal (apiKey, maxWaitTime).

End V1.

(** ** Vocabulary of the specification *)

(** A value that is a string and is not empty. *)
Definition non_empty_string (v : JsValue) : Prop :=
  exists s, v = JStr s /\ s <> EmptyString.

(** [word] occurs in [s] as a contiguous run of characters. *)
Definition occurs_in (word s : string) : Prop :=
  exists before after, s = before ++ word ++ after.

Definition lower_hex (c : ascii) : bool :=
  let n := nat_of_ascii c in
  ((48 <=? n) && (n <=? 57) || (97 <=? n) && (n <=? 102))%nat.

Fixpoint all_lower_hex (s : string) : bool :=
  match s with
  | EmptyString => true
  | String c rest => lower_hex c && all_lower_hex rest
  end.

Fixpoint dollar_free (s : string) : bool :=
  match s with
  | EmptyString => true
  | String c rest => negb (c =? "$")%char && dollar_free rest
  end.


(** The rejection, if any, that ends the exchange: of [fetch] itself, of
    [text()] on a non-2xx response, of [json()] on a 2xx response. *)
Definition rejection (fetched : Promise Response) : option JsValue :=
  match fetched with
  | Rejected e => Some e
  | Pending => None
  | Fulfilled response =>
      if ok response then
        match json response with Rejected e => Some e | _ => None end
      else
        match text response with Rejected e => Some e | _ => None end
  end.

(** The result of a call that fails open. *)
Definition fail_open (message : string) : DetectionResponse :=
  {| safe := JBool true;
     detectionId := JStr EmptyString;
     error := JStr message |}.

(** The exchange never ends: [fetch] stays pending, or the body that the
    client reads ([text()] of a non-2xx response, [json()] of a 2xx
    response) never arrives. *)
Definition stalled (fetched : Promise Response) : bool :=
  match fetched with
  | Pending => true
  | Rejected _ => false
  | Fulfilled response =>
      if ok response then
        match json response with Pending => true | _ => false end
      else
        match text response with Pending => true | _ => false end
  end.



(** A field of a parsed body; [JUndefined] when the body has no such
    field. *)
Definition body_field (data : JsValue) (key : string) : JsValue :=
  match data with
  | JObj props => lookup key props
  | _ => JUndefined
  end.

(** The [safe] field of the result a call delivers, if any. *)
Definition safe_of (promise : Promise DetectionResponse) : option JsValue :=
  match promise with
  | Fulfilled result => Some (safe result)
  | Rejected _ | Pending => None
  end.

(** The length [generateCanaryWord] is asked for: the requested one when it
    is a positive integer, the configured default when the request is
    zero, absent or [NaN]. *)
Inductive requested_length (this : PromptCage)
  : option JsNumber -> Z -> Prop :=
| requested_positive n :
    0 < n -> requested_length this (Some (Num n)) n
| requested_zero :
    requested_length this (Some (Num 0)) (defaultCanaryLength this)
| requested_nan :
    requested_length this (Some NaN) (defaultCanaryLength this)
| requested_absent :
    requested_length this None (defaultCanaryLength this).

(** A length the runtime can serve: positive, and no longer than the
    longest string it builds. *)
Definition servable (n : Z) : Prop := 0 < n <= MAX_STRING_LENGTH.

(** The format [addCanaryWord] works with: the one passed when it is not
    empty, the configured default otherwise. *)
Inductive format_in_force (this : PromptCage)
  : option string -> string -> Prop :=
| format_passed format :
    format <> EmptyString -> format_in_force this (Some format) format
| format_empty :
    format_in_force this (Some EmptyString) (defaultCanaryFormat this)
| format_absent :
    format_in_force this None (defaultCanaryFormat this).

(** The canary word [addCanaryWord] works with and what it leaves of the
    random source: the word passed when it is not empty, a generated one
    otherwise. *)
Inductive canary_in_use (this : PromptCage) (rng : Entropy)
  : option string -> string -> Entropy -> Prop :=
| canary_passed word :
    word <> EmptyString -> canary_in_use this rng (Some word) word rng
| canary_generated word canary rng' :
    word = None \/ word = Some EmptyString ->
    generateCanaryWord this None rng = (Normal canary, rng') ->
    canary_in_use this rng word canary rng'.

(** [before] is the text in front of the first placeholder of
    [before ++ "{canary_word}" ++ after]: no occurrence of the placeholder
    starts earlier. *)
Definition first_placeholder (before after : string) : Prop :=
  forall b a,
    before ++ "{canary_word}" ++ after = b ++ "{canary_word}" ++ a ->
    (String.length before <= String.length b)%nat.

(** Options with one field replaced. *)
Definition with_maxWaitTime (options : PromptCageOptions) (v : option Z)
  : PromptCageOptions :=
  {| opt_apiKey := opt_apiKey options;
     opt_maxWaitTime := v;
     opt_defaultCanaryLength := opt_defaultCanaryLength options;
     opt_defaultCanaryFormat := opt_defaultCanaryFormat options |}.

Definition with_apiKey (options : PromptCageOptions) (v : option string)
  : PromptCageOptions :=
  {| opt_apiKey := v;
     opt_maxWaitTime := opt_maxWaitTime options;
     opt_defaultCanaryLength := opt_defaultCanaryLength options;
     opt_defaultCanaryFormat := opt_defaultCanaryFormat options |}.

(** An environment where only [PROMPTCAGE_API_KEY] is set. *)
Definition env_with (key : string) : string -> option string :=
  fun name => if (name =? "PROMPTCAGE_API_KEY")%string then Some key else None.

(** An optional string that is given and not empty. *)
Definition present (v : option string) : Prop :=
  exists s, v = Some s /\ s <> EmptyString.

(** The value of a hexadecimal digit (0 for any other character). *)
Definition hexValue (c : ascii) : N :=
  match c with
  | "0" => 0 | "1" => 1 | "2" => 2 | "3" => 3
  | "4" => 4 | "5" => 5 | "6" => 6 | "7" => 7
  | "8" => 8 | "9" => 9 | "a" => 10 | "b" => 11
  | "c" => 12 | "d" => 13 | "e" => 14 | "f" => 15
  | _ => 0
  end%char%N.

(** How many times [c] occurs in [s]. *)
Fixpoint count_char (c : ascii) (s : string) : nat :=
  match s with
  | EmptyString => O
  | String d rest =>
      ((if (d =? c)%char then 1 else 0) + count_char c rest)%nat
  end.

(** ** Running the client on the inputs of the test suite *)

Definition test_client : PromptCage :=
  {| apiKey := "test-api-key";
     baseUrl := "https://promptcage.com/api/v1";
     maxWaitTime := 1000;
     defaultCanaryLength := 8;
     defaultCanaryFormat := "<!-- {canary_word} -->" |}.

Definition no_env : string -> option string := fun _ => None.

Definition key_only (key : string) : PromptCageOptions :=
  {| opt_apiKey := Some key;
     opt_maxWaitTime := None;
     opt_defaultCanaryLength := None;
     opt_defaultCanaryFormat := None |}.

(** A random source that counts 0xa0, 0xa1, 0xa2, ... *)
Definition counting_rng : Entropy :=
  fun i => match Byte.of_N (160 + N.of_nat i mod 96) with
           | Some b => b
           | None => x00
           end.

Definition unauthorized : Response :=
  {| ok := false; status := 401;
     text := Fulfilled "Unauthorized";
     json := Rejected (JError "SyntaxError" "Unexpected token U") |}.

Definition aborting : Fetch :=
  fun _ => Rejected (JError "AbortError" "The operation was aborted").

Definition waits_10ms : PromptCage :=
  {| apiKey := "test-api-key";
     baseUrl := "https://promptcage.com/api/v1";
     maxWaitTime := 10;
     defaultCanaryLength := 8;
     defaultCanaryFormat := "<!-- {canary_word} -->" |}.

Definition injection_detected : Response :=
  {| ok := true; status := 200;
     text := Fulfilled "{...}";
     json := Fulfilled
               (JObj [("safe", JBool false);
                      ("detectionId", JStr "det_789");
                      ("error", JStr "Prompt injection detected")]) |}.

Definition null_body : Response :=
  {| ok := true; status := 200;
     text := Fulfilled "null";
     json := Fulfilled JNull |}.

Definition negative_client : PromptCage :=
  {| apiKey := "test-api-key";
     baseUrl := "https://promptcage.com/api/v1";
     maxWaitTime := 1000;
     defaultCanaryLength := -4;
     defaultCanaryFormat := "<!-- {canary_word} -->" |}.

Definition zero_wait : PromptCageOptions :=
  {| opt_apiKey := Some "test-api-key";
     opt_maxWaitTime := Some 0;
     opt_defaultCanaryLength := None;
     opt_defaultCanaryFormat := None |}.

Definition empty_body : Response :=
  {| ok := true; status := 200;
     text := Fulfilled "{}";
     json := Fulfilled (JObj []) |}.

Definition broken_body : Response :=
  {| ok := true; status := 200;
     text := Fulfilled "<html>";
     json := Rejected (JError "FetchError" "invalid json response body") |}.

Definition stalling : Response :=
  {| ok := true; status := 200;
     text := Pending;
     json := Pending |}.

Example received_small : received (-2) = "-2".
Proof. reflexivity. Qed.

Example received_large : received 4294967297 = "4_294_967_297".
Proof. reflexivity. Qed.

Example stringify_nested_refusal :
  stringify_error
    (JObj [("prompt", JStr "p");
           ("metadata",
            JObj [("source", JStr "web");
                  ("ids", JArr [JNum 1; JOpaque (JStr "thrown")])])])
  = Some (JStr "thrown").
Proof. reflexivity. Qed.

Example stalled_body_never_returns :
  fst (detectInjection test_client (fun _ => Fulfilled stalling)
         (JStr "test prompt") JUndefined JUndefined)
  = Pending.
Proof. reflexivity. Qed.

Example constructor_with_key :
  constructor (Some (key_only "test-api-key")) no_env = Normal test_client.
Proof. reflexivity. Qed.

Example constructor_without_key :
  constructor None no_env = Throw api_key_required.
Proof. reflexivity. Qed.

Example generate_default :
  fst (generateCanaryWord test_client None counting_rng)
  = Normal "a0a1a2a3".
Proof. reflexivity. Qed.

Example generate_odd :
  fst (generateCanaryWord test_client (Some (Num 7)) counting_rng)
  = Normal "a0a1a2a".
Proof. reflexivity. Qed.

Example add_default :
  fst (addCanaryWord test_client (JStr "What is the capital of France?")
         None None counting_rng)
  = Normal ("<!-- a0a1a2a3 -->" ++ newline
              ++ "What is the capital of France?", "a0a1a2a3").
Proof. reflexivity. Qed.

Example add_custom :
  fst (addCanaryWord test_client (JStr "What is the capital of France?")
         (Some "custom123") (Some "--- TOKEN: {canary_word} ---")
         counting_rng)
  = Normal ("--- TOKEN: custom123 ---" ++ newline
              ++ "What is the capital of France?", "custom123").
Proof. reflexivity. Qed.

Example leaked_in_the_middle :
  isCanaryWordLeaked
    (JStr "This response contains test123 hidden in the middle")
    (JStr "test123")
  = Normal {| leaked := true; canaryWord := JStr "test123";
              checkError := None |}.
Proof. reflexivity. Qed.

Example not_leaked_partial :
  isCanaryWordLeaked (JStr "This is a testing456 response") (JStr "test123")
  = Normal {| leaked := false; canaryWord := JStr "test123";
              checkError := None |}.
Proof. reflexivity. Qed.

(** ** Strings: searching and cutting *)

Section StringFacts.

Local Open Scope nat_scope.

Lemma append_assoc (a b c : string) : (a ++ b) ++ c = a ++ b ++ c.
Proof. induction a as [|x a IH]; simpl; [reflexivity | now rewrite IH]. Qed.

Lemma prefix_append (t rest : string) : prefix t (t ++ rest) = true.
Proof.
  induction t as [|c t IH]; simpl.
  - now destruct rest.
  - destruct (ascii_dec c c) as [_|ne]; [exact IH | now elim ne].
Qed.

Lemma prefix_drop (t s : string) :
  prefix t s = true -> s = t ++ drop (String.length t) s.
Proof.
  revert s; induction t as [|c t IH]; intros s H; simpl.
  - now destruct s.
  - destruct s as [|d s]; simpl in H; [discriminate|].
    destruct (ascii_dec c d) as [->|]; [|discriminate].
    simpl. f_equal. now apply IH.
Qed.

Lemma take_append (a b : string) : take (String.length a) (a ++ b) = a.
Proof. induction a as [|x a IH]; simpl; [now destruct b | now rewrite IH]. Qed.

Lemma length_take (n : nat) (s : string) :
  String.length (take n s) = Nat.min n (String.length s).
Proof.
  revert s; induction n as [|n IH]; intros [|c s]; simpl; auto.
Qed.

Lemma indexOf_unfold (t s : string) :
  indexOf t s =
  if prefix t s then Some 0
  else match s with
       | EmptyString => None
       | String _ rest => option_map S (indexOf t rest)
       end.
Proof. now destruct s. Qed.

Lemma indexOf_split (t s : string) (i : nat) :
  indexOf t s = Some i ->
  s = take i s ++ t ++ drop (i + String.length t) s.
Proof.
  revert i; induction s as [|c s IH]; intros i H;
    rewrite indexOf_unfold in H;
    match type of H with context [prefix ?a ?b] =>
      destruct (prefix a b) eqn:P end.
  - injection H as <-. now apply prefix_drop.
  - discriminate.
  - injection H as <-. now apply prefix_drop.
  - destruct (indexOf t s) as [j|]; [|discriminate].
    injection H as <-. simpl. f_equal. now apply IH.
Qed.

Lemma indexOf_absent (t s : string) :
  indexOf t s = None -> ~ occurs_in t s.
Proof.
  induction s as [|c s IH]; intros H [before [after E]];
    rewrite indexOf_unfold in H;
    match type of H with context [prefix ?a ?b] =>
      destruct (prefix a b) eqn:P end; try discriminate.
  - destruct before; [|discriminate]. simpl in E.
    rewrite E, prefix_append in P. discriminate.
  - destruct before as [|b before]; simpl in E.
    + rewrite E, prefix_append in P. discriminate.
    + destruct (indexOf t s); [discriminate|].
      injection E as _ E. apply IH; [reflexivity|].
      now exists before, after.
Qed.

(** [includes] decides contiguous occurrence. *)
Lemma includes_occurs (s t : string) :
  includes s t = true <-> occurs_in t s.
Proof.
  unfold includes. destruct (indexOf t s) as [i|] eqn:E; split; intro H.
  - exists (take i s), (drop (i + String.length t) s).
    now apply indexOf_split.
  - reflexivity.
  - discriminate.
  - now apply indexOf_absent in E.
Qed.

(** Replacement text without a dollar sign is inserted as it is. *)
Lemma getSubstitution_plain (matched before after template : string) :
  dollar_free template = true ->
  getSubstitution matched before after template = template.
Proof.
  induction template as [|c rest IH]; simpl; [reflexivity|].
  destruct (c =? "$")%char; simpl; [discriminate|].
  intros H. now rewrite IH.
Qed.

Lemma replace_absent (s pattern replacement : string) :
  indexOf pattern s = None -> replace s pattern replacement = s.
Proof. unfold replace. now intros ->. Qed.

End StringFacts.

(** ** The argument guard *)

Lemma nonEmptyString_string (s : string) :
  s <> EmptyString -> nonEmptyString (JStr s) = Some s.
Proof.
  intros H. unfold nonEmptyString. simpl.
  destruct (String.eqb_spec s EmptyString) as [E|_]; [contradiction|].
  reflexivity.
Qed.

Lemma nonEmptyString_passes (v : JsValue) :
  non_empty_string v -> exists s, nonEmptyString v = Some s /\ v = JStr s.
Proof.
  intros [s [-> H]]. exists s. split; [now apply nonEmptyString_string|].
  reflexivity.
Qed.

Lemma nonEmptyString_rejects (v : JsValue) :
  ~ non_empty_string v -> nonEmptyString v = None.
Proof.
  intros H. destruct v as [| | [|] | [| |] | s | items | props | name message | thrown];
    try reflexivity.
  unfold nonEmptyString. simpl.
  destruct (String.eqb_spec s EmptyString) as [E|N]; [reflexivity|].
  elim H. now exists s.
Qed.

Lemma nonEmptyString_sound (v : JsValue) (s : string) :
  nonEmptyString v = Some s -> v = JStr s /\ s <> EmptyString.
Proof.
  destruct v as [| | [|] | [| |] | s0 | items | props | name message | thrown];
    try discriminate.
  unfold nonEmptyString. simpl.
  destruct (String.eqb_spec s0 EmptyString) as [E|N]; [discriminate|].
  intros [= <-]. now split.
Qed.

(** ** Canary check *)

(** C2. For non-empty strings [completion] and [word], the check returns
    a result whose [leaked] flag is true exactly when [word] occurs in
    [completion] as a contiguous, character-for-character substring; the
    result echoes [word] and carries no error. *)
Theorem isCanaryWordLeaked_iff_substring (completion word : string) :
  completion <> EmptyString ->
  word <> EmptyString ->
  exists result,
    isCanaryWordLeaked (JStr completion) (JStr word) = Normal result
    /\ (leaked result = true <-> occurs_in word completion)
    /\ canaryWord result = JStr word
    /\ checkError result = None.
Proof.
  intros Hc Hw.
  unfold isCanaryWordLeaked, isCanaryWordLeaked_try.
  rewrite (nonEmptyString_string _ Hc), (nonEmptyString_string _ Hw).
  eexists. split; [reflexivity|]. simpl.
  split; [apply includes_occurs | split; reflexivity].
Qed.

Lemma isCanaryWordLeaked_iff_substring_witness :
  exists result,
    isCanaryWordLeaked (JStr "The response contains secret123 in lowercase.")
                       (JStr "Secret123") = Normal result
    /\ (leaked result = true <->
        occurs_in "Secret123" "The response contains secret123 in lowercase.")
    /\ canaryWord result = JStr "Secret123"
    /\ checkError result = None.
Proof.
  apply isCanaryWordLeaked_iff_substring; discriminate.
Defined.

(** C8. The check returns normally on every pair of values. A completion
    that is not a non-empty string gives [leaked = false] with the error
    "Completion must be a non-empty string"; a valid completion with a
    canary word that is not a non-empty string gives [leaked = false] with
    the error "Canary word must be a non-empty string"; and whenever an
    error is reported, [leaked] is false. *)
Theorem isCanaryWordLeaked_total (completion word : JsValue) :
  exists result,
    isCanaryWordLeaked completion word = Normal result
    /\ (~ non_empty_string completion ->
        leaked result = false
        /\ checkError result = Some "Completion must be a non-empty string")
    /\ (non_empty_string completion -> ~ non_empty_string word ->
        leaked result = false
        /\ checkError result = Some "Canary word must be a non-empty string")
    /\ (checkError result <> None -> leaked result = false).
Proof.
  unfold isCanaryWordLeaked, isCanaryWordLeaked_try.
  destruct (nonEmptyString completion) as [c|] eqn:Ec.
  - apply nonEmptyString_sound in Ec as [-> Hc].
    assert (Vc : non_empty_string (JStr c)) by now exists c.
    destruct (nonEmptyString word) as [w|] eqn:Ew.
    + apply nonEmptyString_sound in Ew as [-> Hw].
      assert (Vw : non_empty_string (JStr w)) by now exists w.
      eexists; split; [reflexivity|]. simpl.
      split; [|split]; intros; try contradiction; congruence.
    + eexists; split; [reflexivity|]. simpl.
      split; [|split]; intros; try contradiction; auto.
  - eexists; split; [reflexivity|]. simpl.
    split; [|split]; intros; auto.
    match goal with H : non_empty_string _ |- _ =>
      apply nonEmptyString_passes in H as [s [H _]] end.
    congruence.
Qed.

Lemma isCanaryWordLeaked_total_witness :
  (exists result,
     isCanaryWordLeaked JNull (JStr "secret123") = Normal result
     /\ leaked result = false
     /\ checkError result = Some "Completion must be a non-empty string")
  /\ (exists result,
        isCanaryWordLeaked (JStr "Normal response text") (JStr EmptyString)
        = Normal result
        /\ leaked result = false
        /\ checkError result
           = Some "Canary word must be a non-empty string").
Proof.
  split.
  - destruct (isCanaryWordLeaked_total JNull (JStr "secret123"))
      as [result [E [H _]]].
    exists result. split; [exact E|].
    apply H. intros [s [D _]]. discriminate D.
  - destruct (isCanaryWordLeaked_total (JStr "Normal response text")
                (JStr EmptyString)) as [result [E [_ [H _]]]].
    exists result. split; [exact E|].
    apply H.
    + eexists. split; [reflexivity | discriminate].
    + intros [s [D N]]. injection D as <-. now elim N.
Defined.

(** ** Detection *)

(** A valid prompt whose request body is serialised: one request, then
    the [try] block under its [catch]. *)
Lemma detectInjection_sent (this : PromptCage) (fetch : Fetch)
      (prompt userAnonId metadata : JsValue) :
  non_empty_string prompt ->
  stringify_error (body (detect_request this prompt userAnonId metadata))
  = None ->
  detectInjection this fetch prompt userAnonId metadata
  = (async (try_catch_async
              (detectInjection_try
                 (fetch (detect_request this prompt userAnonId metadata)))
              (fun err => Completes (detectInjection_catch this err))),
     [detect_request this prompt userAnonId metadata]).
Proof.
  intros H S. apply nonEmptyString_passes in H as [s [H _]].
  unfold detectInjection. rewrite H. cbv zeta. now rewrite S.
Qed.

(** A valid prompt whose request body cannot be serialised: no request,
    and the [catch] clause on what the serialisation threw. *)
Lemma detectInjection_unsent (this : PromptCage) (fetch : Fetch)
      (prompt userAnonId metadata thrown : JsValue) :
  non_empty_string prompt ->
  stringify_error (body (detect_request this prompt userAnonId metadata))
  = Some thrown ->
  detectInjection this fetch prompt userAnonId metadata
  = (async (Completes (detectInjection_catch this thrown)), []).
Proof.
  intros H S. apply nonEmptyString_passes in H as [s [H _]].
  unfold detectInjection. rewrite H. cbv zeta. now rewrite S.
Qed.

(** What the catch clause answers: always a fail-open result, whose
    message is empty only for an error object with an empty message. *)
Lemma detectInjection_catch_open (this : PromptCage) (err : JsValue) :
  exists message,
    detectInjection_catch this err = Normal (fail_open message)
    /\ (message = EmptyString -> exists name, err = JError name EmptyString).
Proof.
  destruct err as [| | b | z | s | items | props | name message | thrown];
    try (eexists; split; [reflexivity | discriminate]).
  unfold detectInjection_catch.
  destruct (name =? "AbortError")%string.
  - eexists; split; [reflexivity | discriminate].
  - exists message; split; [reflexivity|]. intros ->. now exists name.
Qed.



Lemma detectInjection_try_rejection (fetched : Promise Response)
      (thrown : JsValue) :
  rejection fetched = Some thrown ->
  detectInjection_try fetched = Completes (Throw thrown).
Proof.
  intros R. destruct fetched as [response|err|]; simpl in R.
  - unfold detectInjection_try; simpl.
    destruct (ok response); simpl.
    + destruct (json response); try discriminate. now injection R as ->.
    + destruct (text response); try discriminate. now injection R as ->.
  - now injection R as ->.
  - discriminate.
Qed.


(** C3. A prompt that is empty or not a string makes both methods raise
    the error "Prompt must be a non-empty string": [detectInjection]
    rejects its promise before anything is awaited and sends no request,
    [addCanaryWord] throws and draws nothing from the random source. *)
Theorem invalid_prompt_raises (prompt : JsValue) :
  ~ non_empty_string prompt ->
  (forall this fetch userAnonId metadata,
      detectInjection this fetch prompt userAnonId metadata
      = (Rejected (JError "Error" "Prompt must be a non-empty string"), []))
  /\ (forall this word format rng,
         addCanaryWord this prompt word format rng
         = (Throw (JError "Error" "Prompt must be a non-empty string"), rng)).
Proof.
  intros H. apply nonEmptyString_rejects in H.
  split; intros; [unfold detectInjection | unfold addCanaryWord];
    now rewrite H.
Qed.

Lemma invalid_prompt_raises_witness :
  detectInjection test_client (fun _ => Rejected JNull)
                  (JStr EmptyString) JUndefined JUndefined
  = (Rejected (JError "Error" "Prompt must be a non-empty string"), [])
  /\ addCanaryWord test_client JNull None None counting_rng
     = (Throw (JError "Error" "Prompt must be a non-empty string"),
        counting_rng).
Proof.
  split.
  - apply (invalid_prompt_raises (JStr EmptyString)).
    intros [s [E N]]. injection E as <-. now elim N.
  - apply (invalid_prompt_raises JNull).
    intros [s [E _]]. discriminate E.
Defined.

(** C5. A response that is not 2xx, with status [s] and body text [b],
    yields [safe = true], an empty [detectionId] and the error
    "API request failed with status s: b"; for 401 and "Unauthorized" that
    is "API request failed with status 401: Unauthorized". (A response is
    received only for a request that was sent, that is, whose body was
    serialised.) *)
Theorem non_2xx_error_format (this : PromptCage) (fetch : Fetch)
        (prompt userAnonId metadata : JsValue)
        (response : Response) (b : string) :
  non_empty_string prompt ->
  stringify_error (body (detect_request this prompt userAnonId metadata))
  = None ->
  fetch (detect_request this prompt userAnonId metadata)
  = Fulfilled response ->
  ok response = false ->
  text response = Fulfilled b ->
  fst (detectInjection this fetch prompt userAnonId metadata)
  = Fulfilled
      {| safe := JBool true;
         detectionId := JStr EmptyString;
         error := JStr ("API request failed with status "
                          ++ number_to_string (status response)
                          ++ ": " ++ b) |}
  /\ (status response = 401 -> b = "Unauthorized" ->
      fst (detectInjection this fetch prompt userAnonId metadata)
      = Fulfilled
          {| safe := JBool true;
             detectionId := JStr EmptyString;
             error :=
               JStr "API request failed with status 401: Unauthorized" |}).
Proof.
  intros Hp Hs Hf Hok Ht.
  rewrite (detectInjection_sent _ _ _ _ _ Hp Hs), Hf.
  unfold detectInjection_try. simpl. rewrite Hok, Ht. simpl.
  split; [reflexivity|]. now intros -> ->.
Qed.

Lemma non_2xx_error_format_witness :
  fst (detectInjection test_client (fun _ => Fulfilled unauthorized)
         (JStr "test prompt") JUndefined JUndefined)
  = Fulfilled
      {| safe := JBool true;
         detectionId := JStr EmptyString;
         error := JStr "API request failed with status 401: Unauthorized" |}.
Proof.
  refine (proj2 (non_2xx_error_format test_client
                   (fun _ => Fulfilled unauthorized)
                   (JStr "test prompt") JUndefined JUndefined
                   unauthorized "Unauthorized" _ _ _ _ _) _ _);
    try reflexivity.
  eexists. split; [reflexivity | discriminate].
Defined.



Example timeout_message :
  fst (detectInjection waits_10ms aborting (JStr "test prompt")
         JUndefined JUndefined)
  = Fulfilled {| safe := JBool true;
                 detectionId := JStr EmptyString;
                 error := JStr "Request exceeded max wait time of 10ms" |}.
Proof. reflexivity. Qed.

Example network_error :
  fst (detectInjection test_client
         (fun _ => Rejected (JError "Error" "Network error"))
         (JStr "test prompt") JUndefined JUndefined)
  = Fulfilled {| safe := JBool true;
                 detectionId := JStr EmptyString;
                 error := JStr "Network error" |}.
Proof. reflexivity. Qed.


(** C4 (amended). For a 2xx response whose body parses to a JSON value
    other than [null], the result has [safe] equal to the body's [safe]
    field, or [false] when that field is absent or falsy; [detectionId]
    equal to the body's field, or the empty string when absent or falsy;
    and [error] equal to the body's [error] field as it is. (A response
    is received only for a request that was sent, that is, whose body was
    serialised.) *)
Theorem success_fields (this : PromptCage) (fetch : Fetch)
        (prompt userAnonId metadata : JsValue)
        (response : Response) (data : JsValue) :
  non_empty_string prompt ->
  stringify_error (body (detect_request this prompt userAnonId metadata))
  = None ->
  fetch (detect_request this prompt userAnonId metadata)
  = Fulfilled response ->
  ok response = true ->
  json response = Fulfilled data ->
  data <> JNull ->
  data <> JUndefined ->
  fst (detectInjection this fetch prompt userAnonId metadata)
  = Fulfilled
      {| safe := if toBoolean (body_field data "safe")
                 then body_field data "safe" else JBool false;
         detectionId := if toBoolean (body_field data "detectionId")
                        then body_field data "detectionId"
                        else JStr EmptyString;
         error := body_field data "error" |}.
Proof.
  intros Hp Hs Hf Hok Hj Hnull Hundef.
  rewrite (detectInjection_sent _ _ _ _ _ Hp Hs), Hf.
  unfold detectInjection_try. simpl. rewrite Hok, Hj. simpl.
  destruct data; try reflexivity; contradiction.
Qed.

Lemma success_fields_witness :
  fst (detectInjection test_client (fun _ => Fulfilled injection_detected)
         (JStr "test prompt") JUndefined JUndefined)
  = Fulfilled {| safe := JBool false;
                 detectionId := JStr "det_789";
                 error := JStr "Prompt injection detected" |}.
Proof.
  refine (success_fields test_client (fun _ => Fulfilled injection_detected)
            (JStr "test prompt") JUndefined JUndefined injection_detected
            (JObj [("safe", JBool false);
                   ("detectionId", JStr "det_789");
                   ("error", JStr "Prompt injection detected")])
            _ _ _ _ _ _ _); try reflexivity; try discriminate.
  eexists. split; [reflexivity | discriminate].
Defined.

(** C4, as first stated, covers every body that parses as JSON. The body
    [null] parses, has no [safe] field, and yet the result is not
    [safe = false]: reading a field of [null] throws inside the [try]
    block and the call fails open. *)
Lemma success_fields_null_body :
  ok null_body = true
  /\ json null_body = Fulfilled JNull
  /\ body_field JNull "safe" = JUndefined
  /\ (exists message,
        fst (detectInjection test_client (fun _ => Fulfilled null_body)
               (JStr "test prompt") JUndefined JUndefined)
        = Fulfilled {| safe := JBool true;
                       detectionId := JStr EmptyString;
                       error := JStr message |})
  /\ safe_of (fst (detectInjection test_client (fun _ => Fulfilled null_body)
                     (JStr "test prompt") JUndefined JUndefined))
     <> Some (JBool false).
Proof.
  repeat split; [|discriminate].
  eexists. reflexivity.
Qed.

(** ** Canary generation *)

Lemma hexDigit_lower (n : N) : lower_hex (hexDigit n) = true.
Proof.
  destruct n as [|p]; [reflexivity|].
  do 5 (try (destruct p as [p|p|]; try reflexivity)).
Qed.

Lemma toHex_lower (bytes : list byte) : all_lower_hex (toHex bytes) = true.
Proof.
  induction bytes as [|b rest IH]; [reflexivity|].
  simpl. now rewrite !hexDigit_lower, IH.
Qed.

Lemma toHex_length (bytes : list byte) :
  String.length (toHex bytes) = (2 * List.length bytes)%nat.
Proof.
  induction bytes as [|b rest IH]; [reflexivity|].
  simpl String.length. rewrite IH. simpl. lia.
Qed.

Lemma take_lower (n : nat) (s : string) :
  all_lower_hex s = true -> all_lower_hex (take n s) = true.
Proof.
  revert s; induction n as [|n IH]; intros [|c s]; simpl; auto.
  intros H. apply andb_prop in H as [Hc Hs]. now rewrite Hc, IH.
Qed.

Lemma slice_prefix (s : string) (n : Z) :
  0 <= n <= Z.of_nat (String.length s) ->
  slice s 0 n = take (Z.to_nat n) s.
Proof.
  intros H. unfold slice.
  replace (n <? 0) with false by (symmetry; apply Z.ltb_ge; lia).
  simpl (0 <? 0).
  rewrite (Z.min_l 0) by lia. rewrite (Z.min_l n) by lia.
  rewrite Z.sub_0_r. simpl Z.to_nat at 2. now destruct s.
Qed.

Lemma ceil_half_covers (n : Z) :
  0 < n -> 0 <= ceil_half n /\ n <= 2 * ceil_half n.
Proof. intros H. unfold ceil_half. Z.div_mod_to_equations. lia. Qed.

(** A servable effective length is honoured: what is returned and what
    is left of the random source. *)
Lemma generateCanaryWord_draw (this : PromptCage)
      (length : option JsNumber) (rng : Entropy) :
  servable (argument_or length (defaultCanaryLength this)) ->
  generateCanaryWord this length rng
  = (Normal
       (take (Z.to_nat (argument_or length (defaultCanaryLength this)))
          (toHex
             (map rng
                (seq 0 (Z.to_nat
                          (ceil_half
                             (argument_or length
                                          (defaultCanaryLength this)))))))),
     fun i =>
       rng (Z.to_nat
              (ceil_half (argument_or length (defaultCanaryLength this)))
            + i)%nat).
Proof.
  intros [Hlo Hhi]. unfold generateCanaryWord.
  set (n := argument_or length (defaultCanaryLength this)) in *.
  destruct (ceil_half_covers n Hlo) as [H0 H2].
  assert (Hk : 2 * ceil_half n <= MAX_STRING_LENGTH).
  { unfold ceil_half, MAX_STRING_LENGTH in *. Z.div_mod_to_equations. lia. }
  unfold randomBytes.
  replace ((ceil_half n <? 0) || (kMaxInt32 <? ceil_half n)) with false.
  - unfold toString_hex. rewrite length_map, length_seq.
    replace (MAX_STRING_LENGTH <? 2 * Z.of_nat (Z.to_nat (ceil_half n)))
      with false by (symmetry; apply Z.ltb_ge; lia).
    rewrite slice_prefix; [reflexivity|].
    rewrite toHex_length, length_map, length_seq. lia.
  - symmetry. apply orb_false_intro; apply Z.ltb_ge; [lia|].
    unfold kMaxInt32, MAX_STRING_LENGTH in *. lia.
Qed.

Lemma generateCanaryWord_exact (this : PromptCage)
      (length : option JsNumber) (rng : Entropy) :
  servable (argument_or length (defaultCanaryLength this)) ->
  exists word rng',
    generateCanaryWord this length rng = (Normal word, rng')
    /\ Z.of_nat (String.length word)
       = argument_or length (defaultCanaryLength this)
    /\ all_lower_hex word = true.
Proof.
  intros H. rewrite (generateCanaryWord_draw _ _ _ H).
  destruct H as [Hlo Hhi].
  set (n := argument_or length (defaultCanaryLength this)) in *.
  destruct (ceil_half_covers n Hlo) as [H0 H2].
  eexists. eexists. split; [reflexivity|]. split.
  - rewrite length_take, toHex_length, length_map, length_seq. lia.
  - apply take_lower, toHex_lower.
Qed.

(** C6 (amended). A requested length that is a positive integer, odd or
    even, and not above 536870888 (the longest string the runtime builds)
    yields that many lowercase hexadecimal characters. A request that is
    zero, absent or otherwise falsy ([NaN]) falls back to the configured
    default length and yields that many lowercase hexadecimal characters
    when the default is such a length. The constructor sets the default
    to 8 when the option is unconfigured or zero and otherwise keeps the
    configured number. *)
Theorem generateCanaryWord_length :
  (forall this length rng n,
      requested_length this length n ->
      servable n ->
      exists word rng',
        generateCanaryWord this length rng = (Normal word, rng')
        /\ Z.of_nat (String.length word) = n
        /\ all_lower_hex word = true)
  /\ (forall options env this,
         constructor options env = Normal this ->
         defaultCanaryLength this
         = match optional options opt_defaultCanaryLength with
           | None | Some 0 => 8
           | Some configured => configured
           end).
Proof.
  split.
  - intros this length rng n R Hn.
    assert (E : argument_or length (defaultCanaryLength this) = n).
    { destruct R as [m Hm| | |]; try reflexivity.
      simpl. destruct (Z.eqb_spec m 0); [lia | reflexivity]. }
    destruct (generateCanaryWord_exact this length rng) as [w [r [G [L X]]]].
    + now rewrite E.
    + exists w, r. rewrite <- E. now repeat split.
  - intros options env this. unfold constructor.
    destruct (string_or _ _ =? EmptyString)%string; [discriminate|].
    intros [= <-]. simpl. unfold number_or.
    destruct (optional options opt_defaultCanaryLength) as [[|p|p]|];
      reflexivity.
Qed.

Lemma generateCanaryWord_length_witness :
  (exists word rng',
      generateCanaryWord test_client (Some (Num 7)) counting_rng
      = (Normal word, rng')
      /\ Z.of_nat (String.length word) = 7
      /\ all_lower_hex word = true)
  /\ (exists word rng',
         generateCanaryWord test_client (Some NaN) counting_rng
         = (Normal word, rng')
         /\ Z.of_nat (String.length word) = 8
         /\ all_lower_hex word = true)
  /\ defaultCanaryLength test_client = 8.
Proof.
  destruct generateCanaryWord_length as [G D].
  split; [|split].
  - apply (G test_client (Some (Num 7)) counting_rng 7).
    + apply requested_positive. lia.
    + unfold servable, MAX_STRING_LENGTH. lia.
  - apply (G test_client (Some NaN) counting_rng 8).
    + exact (requested_nan test_client).
    + unfold servable, MAX_STRING_LENGTH. lia.
  - exact (D (Some (key_only "test-api-key")) no_env test_client eq_refl).
Defined.

(** C6, as first stated, promises a string of exactly [n] characters for
    every positive integer [n]. For [n = 2^32] the call asks
    [crypto.randomBytes] for [2^31] bytes, one more than it accepts: a
    range error is thrown and no string is returned. *)
Lemma generateCanaryWord_too_long :
  0 < 4294967296
  /\ generateCanaryWord test_client (Some (Num 4294967296)) counting_rng
     = (Throw (range_error 2147483648), counting_rng)
  /\ ~ (exists word rng',
          generateCanaryWord test_client (Some (Num 4294967296))
                             counting_rng
          = (Normal word, rng')).
Proof.
  split; [reflexivity | split; [reflexivity|]].
  intros [word [rng' E]]. discriminate E.
Qed.

(** ** Canary embedding *)

Lemma drop_past (a s : string) (n : nat) :
  drop (String.length a + n) (a ++ s) = drop n s.
Proof. induction a as [|c a IH]; simpl; [reflexivity | exact IH]. Qed.

(** With a replacement free of dollar signs, [replace] puts it in place of
    the occurrence found by [indexOf] and leaves the rest alone. *)
Lemma replace_first_plain (before after pattern word : string) :
  dollar_free word = true ->
  indexOf pattern (before ++ pattern ++ after)
  = Some (String.length before) ->
  replace (before ++ pattern ++ after) pattern word
  = before ++ word ++ after.
Proof.
  intros Hd Hi. unfold replace. rewrite Hi. cbv zeta.
  rewrite take_append, drop_past.
  rewrite <- (Nat.add_0_r (String.length pattern)), drop_past.
  now rewrite getSubstitution_plain.
Qed.

Lemma lower_hex_dollar_free (s : string) :
  all_lower_hex s = true -> dollar_free s = true.
Proof.
  induction s as [|c s IH]; simpl; [reflexivity|].
  intros H. apply andb_prop in H as [Hc Hs]. rewrite (IH Hs).
  destruct (Ascii.eqb_spec c "$") as [->|]; [discriminate | reflexivity].
Qed.

(** Where the canary word has no dollar sign (every generated word is of
    that kind), the default format embeds it verbatim. *)
Lemma addCanaryWord_default_plain (this : PromptCage) (prompt word : string)
      (rng : Entropy) :
  prompt <> EmptyString -> word <> EmptyString ->
  dollar_free word = true ->
  defaultCanaryFormat this = "<!-- {canary_word} -->" ->
  addCanaryWord this (JStr prompt) (Some word) None rng
  = (Normal (("<!-- " ++ word ++ " -->") ++ newline ++ prompt, word), rng).
Proof.
  intros Hp Hw Hd Hf. unfold addCanaryWord.
  rewrite (nonEmptyString_string _ Hp).
  destruct (String.eqb_spec word EmptyString) as [E|_]; [contradiction|].
  simpl string_or. rewrite Hf. cbv zeta.
  change "<!-- {canary_word} -->"
    with ("<!-- " ++ "{canary_word}" ++ " -->").
  rewrite (replace_first_plain "<!-- " " -->" "{canary_word}" word Hd);
    reflexivity.
Qed.

(** A generated canary word is hexadecimal, hence embedded verbatim. *)
Lemma addCanaryWord_generated (this : PromptCage) (prompt : string)
      (rng : Entropy) :
  prompt <> EmptyString ->
  servable (defaultCanaryLength this) ->
  defaultCanaryFormat this = "<!-- {canary_word} -->" ->
  exists word rng',
    addCanaryWord this (JStr prompt) None None rng
    = (Normal (("<!-- " ++ word ++ " -->") ++ newline ++ prompt, word), rng')
    /\ Z.of_nat (String.length word) = defaultCanaryLength this
    /\ all_lower_hex word = true
    /\ occurs_in word (("<!-- " ++ word ++ " -->") ++ newline ++ prompt).
Proof.
  intros Hp Hd Hf.
  destruct (generateCanaryWord_exact this None rng Hd) as [w [r [G [L X]]]].
  exists w, r. unfold addCanaryWord.
  rewrite (nonEmptyString_string _ Hp), G. simpl string_or. rewrite Hf.
  cbv zeta.
  change "<!-- {canary_word} -->"
    with ("<!-- " ++ "{canary_word}" ++ " -->").
  rewrite (replace_first_plain "<!-- " " -->" "{canary_word}" w
             (lower_hex_dollar_free _ X) eq_refl).
  repeat split; try assumption.
  exists "<!-- ", (" -->" ++ newline ++ prompt).
  now rewrite !append_assoc.
Qed.

(** C7, at a canary word with a replacement pattern. The caller supplies
    the canary word [pa$$word]; [String.prototype.replace] reads [$$] in
    the replacement text as one dollar sign, so the marker line holds
    [pa$word]: the first element is not the format with the canary word
    in place of the placeholder, and the canary word returned as second
    element does not occur in it. *)
Theorem addCanaryWord_dollar_pattern :
  addCanaryWord test_client (JStr "What is the capital of France?")
                (Some "pa$$word") None counting_rng
  = (Normal ("<!-- pa$word -->" ++ newline
               ++ "What is the capital of France?", "pa$$word"),
     counting_rng)
  /\ includes ("<!-- pa$word -->" ++ newline
                 ++ "What is the capital of France?") "pa$$word" = false
  /\ isCanaryWordLeaked
       (JStr ("<!-- pa$word -->" ++ newline
                ++ "What is the capital of France?"))
       (JStr "pa$$word")
     = Normal {| leaked := false; canaryWord := JStr "pa$$word";
                 checkError := None |}.
Proof. repeat split. Qed.

Lemma indexOf_minimal (t s : string) (i : nat) :
  indexOf t s = Some i ->
  forall b a, s = b ++ t ++ a -> (i <= String.length b)%nat.
Proof.
  revert i; induction s as [|c s IH]; intros i H b a E;
    rewrite indexOf_unfold in H;
    match type of H with context [prefix ?x ?y] =>
      destruct (prefix x y) eqn:P end.
  - injection H as <-. lia.
  - discriminate.
  - injection H as <-. lia.
  - destruct (indexOf t s) as [j|] eqn:J; [|discriminate].
    injection H as <-. destruct b as [|d b]; simpl in E.
    + rewrite E, prefix_append in P. discriminate.
    + injection E as _ E. simpl. apply le_n_S. now apply (IH j eq_refl b a).
Qed.

Lemma indexOf_of_first_placeholder (before after : string) :
  first_placeholder before after ->
  indexOf "{canary_word}" (before ++ "{canary_word}" ++ after)
  = Some (String.length before).
Proof.
  intros F.
  destruct (indexOf "{canary_word}" (before ++ "{canary_word}" ++ after))
    as [i|] eqn:E.
  - pose proof (indexOf_minimal _ _ _ E before after eq_refl) as Hle.
    pose proof (indexOf_split _ _ _ E) as Hs.
    pose proof (F _ _ Hs) as Hge. rewrite length_take in Hge.
    f_equal. lia.
  - apply indexOf_absent in E. elim E. now exists before, after.
Qed.

Lemma includes_absent (s t : string) :
  ~ occurs_in t s -> indexOf t s = None.
Proof.
  intros H. destruct (indexOf t s) as [i|] eqn:E; [|reflexivity].
  elim H. apply includes_occurs. unfold includes. now rewrite E.
Qed.

(** [addCanaryWord] on a valid prompt, by the format and the canary word
    it works with. *)
Lemma addCanaryWord_with (this : PromptCage) (prompt : string)
      (word format : option string) (f canary : string)
      (rng rng' : Entropy) :
  prompt <> EmptyString ->
  format_in_force this format f ->
  canary_in_use this rng word canary rng' ->
  addCanaryWord this (JStr prompt) word format rng
  = (Normal (replace f "{canary_word}" canary ++ newline ++ prompt, canary),
     rng').
Proof.
  intros Hp Hf Hc. unfold addCanaryWord.
  rewrite (nonEmptyString_string _ Hp).
  assert (Ef : string_or format (defaultCanaryFormat this) = f).
  { destruct Hf as [g Hg| |]; try reflexivity. simpl.
    now destruct (String.eqb_spec g EmptyString). }
  destruct Hc as [w Hw | w c r [-> | ->] G].
  - destruct (String.eqb_spec w EmptyString) as [E|_]; [contradiction|].
    cbv zeta. now rewrite Ef.
  - rewrite G. cbv zeta. now rewrite Ef.
  - simpl. rewrite G. cbv zeta. now rewrite Ef.
Qed.

(** C9 (amended). Only the first occurrence of the placeholder is
    replaced: for a format [before ++ "{canary_word}" ++ after] in which
    no placeholder starts earlier, and a canary word without a dollar
    sign (supplied or generated), the first element is [before], the
    canary word, then [after] as it is, further placeholders included,
    then a newline and the prompt. With a format that has no placeholder
    (passed or configured), the first element is the format, a newline
    and the prompt; the canary word is not inserted but is still returned
    as the second element; and a leak check of that first element reports
    [leaked = true] exactly when the canary word already occurs in it. *)
Theorem addCanaryWord_first_placeholder_only :
  (forall this prompt word format before after canary rng rng',
      prompt <> EmptyString ->
      format_in_force this format (before ++ "{canary_word}" ++ after) ->
      first_placeholder before after ->
      canary_in_use this rng word canary rng' ->
      dollar_free canary = true ->
      addCanaryWord this (JStr prompt) word format rng
      = (Normal ((before ++ canary ++ after) ++ newline ++ prompt, canary),
         rng'))
  /\ (forall this prompt word format f canary rng rng',
         prompt <> EmptyString ->
         format_in_force this format f ->
         ~ occurs_in "{canary_word}" f ->
         canary_in_use this rng word canary rng' ->
         addCanaryWord this (JStr prompt) word format rng
         = (Normal (f ++ newline ++ prompt, canary), rng')
         /\ (canary <> EmptyString ->
             exists result,
               isCanaryWordLeaked (JStr (f ++ newline ++ prompt))
                                  (JStr canary) = Normal result
               /\ (leaked result = true
                   <-> occurs_in canary (f ++ newline ++ prompt)))).
Proof.
  split.
  - intros this prompt word format before after canary rng rng'
           Hp Hf Hfirst Hc Hd.
    rewrite (addCanaryWord_with _ _ _ _ _ _ _ _ Hp Hf Hc).
    rewrite (replace_first_plain _ _ _ _ Hd
               (indexOf_of_first_placeholder _ _ Hfirst)).
    reflexivity.
  - intros this prompt word format f canary rng rng' Hp Hf Hno Hc.
    rewrite (addCanaryWord_with _ _ _ _ _ _ _ _ Hp Hf Hc).
    rewrite (replace_absent _ _ _ (includes_absent _ _ Hno)).
    split; [reflexivity|]. intros Hw.
    unfold isCanaryWordLeaked, isCanaryWordLeaked_try.
    rewrite nonEmptyString_string, (nonEmptyString_string _ Hw).
    + eexists. split; [reflexivity|]. apply includes_occurs.
    + destruct f; discriminate.
Qed.

Lemma addCanaryWord_first_placeholder_only_witness :
  addCanaryWord test_client (JStr "Translate this text")
                (Some "abc123") (Some "{canary_word} and {canary_word}")
                counting_rng
  = (Normal ((EmptyString ++ "abc123" ++ " and {canary_word}") ++ newline
               ++ "Translate this text", "abc123"), counting_rng)
  /\ addCanaryWord test_client (JStr "Translate this text") None
                   (Some "{canary_word} and {canary_word}") counting_rng
     = (Normal ((EmptyString ++ "a0a1a2a3" ++ " and {canary_word}") ++ newline
                  ++ "Translate this text", "a0a1a2a3"),
        snd (generateCanaryWord test_client None counting_rng))
  /\ addCanaryWord test_client (JStr "Translate this text")
                   (Some "secret123") (Some "--- TOKEN ---") counting_rng
     = (Normal ("--- TOKEN ---" ++ newline ++ "Translate this text",
                "secret123"), counting_rng).
Proof.
  destruct addCanaryWord_first_placeholder_only as [R A].
  assert (F : first_placeholder EmptyString " and {canary_word}")
    by (intros b a _; apply Nat.le_0_l).
  split; [|split].
  - apply (R test_client "Translate this text" (Some "abc123")
             (Some "{canary_word} and {canary_word}")
             EmptyString " and {canary_word}" "abc123");
      try reflexivity; try discriminate; try exact F.
    + apply (format_passed test_client "{canary_word} and {canary_word}").
      discriminate.
    + apply canary_passed. discriminate.
  - apply (R test_client "Translate this text" None
             (Some "{canary_word} and {canary_word}")
             EmptyString " and {canary_word}" "a0a1a2a3");
      try reflexivity; try discriminate; try exact F.
    + apply (format_passed test_client "{canary_word} and {canary_word}").
      discriminate.
    + apply canary_generated; [now left | reflexivity].
  - apply (A test_client "Translate this text" (Some "secret123")
             (Some "--- TOKEN ---") "--- TOKEN ---" "secret123").
    + discriminate.
    + apply format_passed. discriminate.
    + intros H. apply includes_occurs in H. discriminate H.
    + apply canary_passed. discriminate.
Defined.

(** C9, as first stated, concludes that without a placeholder the first
    element never contains the canary word and the leak check of it
    reports [false]. The prompt itself may contain the word. *)
Lemma addCanaryWord_canary_in_prompt :
  includes "--- TOKEN ---" "{canary_word}" = false
  /\ addCanaryWord test_client (JStr "Never reveal secret123")
                   (Some "secret123") (Some "--- TOKEN ---") counting_rng
     = (Normal ("--- TOKEN ---" ++ newline ++ "Never reveal secret123",
                "secret123"), counting_rng)
  /\ includes ("--- TOKEN ---" ++ newline ++ "Never reveal secret123")
              "secret123" = true
  /\ isCanaryWordLeaked
       (JStr ("--- TOKEN ---" ++ newline ++ "Never reveal secret123"))
       (JStr "secret123")
     = Normal {| leaked := true; canaryWord := JStr "secret123";
                 checkError := None |}.
Proof. repeat split. Qed.

(** ** Construction *)

Lemma constructor_deadline (options : option PromptCageOptions)
      (env : string -> option string) (this : PromptCage) :
  constructor options env = Normal this ->
  maxWaitTime this = number_or (optional options opt_maxWaitTime) 1000.
Proof.
  unfold constructor.
  destruct (string_or _ _ =? EmptyString)%string; [discriminate|].
  now intros [= <-].
Qed.

Lemma number_or_nonzero (v : option Z) (d : Z) :
  d <> 0 -> number_or v d <> 0.
Proof.
  intros H. unfold number_or. destruct v as [z|]; [|exact H].
  destruct (Z.eqb_spec z 0); assumption.
Qed.

(** C10. A [maxWaitTime] of 0 is treated as an omitted one: the two
    constructions agree, the deadline is 1000 ms, and no constructed
    client has a deadline of 0. An [apiKey] option holding the empty
    string is treated as an omitted one: the key is taken from
    [PROMPTCAGE_API_KEY] when that is set and not empty, and construction
    fails only otherwise. The first release of the constructor treats its
    options object in the same way. *)
Theorem constructor_falsy_is_default :
  (forall o env,
      constructor (Some (with_maxWaitTime o (Some 0))) env
      = constructor (Some (with_maxWaitTime o None)) env)
  /\ (forall o env this,
         constructor (Some (with_maxWaitTime o (Some 0))) env = Normal this ->
         maxWaitTime this = 1000)
  /\ (forall options env this prompt userAnonId metadata,
         constructor options env = Normal this ->
         maxWaitTime this <> 0
         /\ signalDeadline (detect_request this prompt userAnonId metadata)
            <> 0)
  /\ (forall o env,
         constructor (Some (with_apiKey o (Some EmptyString))) env
         = constructor (Some (with_apiKey o None)) env)
  /\ (forall o key,
         key <> EmptyString ->
         exists this,
           constructor (Some (with_apiKey o (Some EmptyString)))
                       (env_with key) = Normal this
           /\ apiKey this = key)
  /\ (forall o env,
         env "PROMPTCAGE_API_KEY" = None
         \/ env "PROMPTCAGE_API_KEY" = Some EmptyString ->
         constructor (Some (with_apiKey o (Some EmptyString))) env
         = Throw api_key_required)
  /\ (forall o env,
         V1.constructor (V1.Options (Some (with_maxWaitTime o (Some 0)))) env
         = V1.constructor (V1.Options (Some (with_maxWaitTime o None))) env)
  /\ (forall o env,
         V1.constructor
           (V1.Options (Some (with_apiKey o (Some EmptyString)))) env
         = V1.constructor (V1.Options (Some (with_apiKey o None))) env).
Proof.
  repeat apply conj; try reflexivity.
  - intros o env this H. now rewrite (constructor_deadline _ _ _ H).
  - intros options env this prompt userAnonId metadata H.
    simpl. rewrite (constructor_deadline _ _ _ H).
    split; now apply number_or_nonzero.
  - intros o key Hk. unfold constructor, env_with. simpl.
    destruct (String.eqb_spec key EmptyString) as [E|_]; [contradiction|].
    destruct (String.eqb_spec key EmptyString) as [E|_]; [contradiction|].
    eexists. split; reflexivity.
  - intros o env [E|E]; unfold constructor; simpl; now rewrite E.
Qed.

Lemma constructor_falsy_is_default_witness :
  maxWaitTime test_client = 1000
  /\ maxWaitTime test_client <> 0
  /\ (exists this,
         constructor (Some (with_apiKey zero_wait (Some EmptyString)))
                     (env_with "env-key") = Normal this
         /\ apiKey this = "env-key")
  /\ constructor (Some (with_apiKey zero_wait (Some EmptyString))) no_env
     = Throw api_key_required.
Proof.
  destruct constructor_falsy_is_default
    as [_ [D [N [_ [K [F _]]]]]].
  split; [|split; [|split]].
  - exact (D zero_wait no_env test_client eq_refl).
  - exact (proj1 (N (Some zero_wait) no_env test_client JNull JNull JNull
                     eq_refl)).
  - apply (K zero_wait "env-key"). discriminate.
  - apply (F zero_wait no_env). now left.
Defined.

(** * Further properties of the client *)

(** ** Detection: the request, the settlement and the verdict *)

(** X1. A call sends at most one request, whatever the network answers.
    It sends none exactly when the prompt is not a non-empty string or
    the request body cannot be serialised. The request it sends is a POST
    to [baseUrl + "/detect"] with the bearer and JSON headers, armed with
    the configured deadline; its body holds the prompt, and holds
    [userAnonId] and [metadata] only when they are truthy (an empty
    string or [null] is left out). *)
Theorem detectInjection_requests (this : PromptCage) (fetch : Fetch)
        (prompt userAnonId metadata : JsValue) :
  (List.length (snd (detectInjection this fetch prompt userAnonId metadata))
   <= 1)%nat
  /\ (snd (detectInjection this fetch prompt userAnonId metadata) = []
      <-> ~ non_empty_string prompt
          \/ stringify_error
               (body (detect_request this prompt userAnonId metadata))
             <> None)
  /\ (forall request,
         In request
            (snd (detectInjection this fetch prompt userAnonId metadata)) ->
         url request = baseUrl this ++ "/detect"
         /\ method request = "POST"
         /\ headers request = [("Authorization", "Bearer " ++ apiKey this);
                               ("Content-Type", "application/json")]
         /\ signalDeadline request = maxWaitTime this
         /\ body_field (body request) "prompt" = prompt
         /\ body_field (body request) "userAnonId"
            = (if toBoolean userAnonId then userAnonId else JUndefined)
         /\ body_field (body request) "metadata"
            = (if toBoolean metadata then metadata else JUndefined)).
Proof.
  unfold detectInjection.
  destruct (nonEmptyString prompt) as [p|] eqn:V.
  - apply nonEmptyString_sound in V as [-> Hp].
    assert (Valid : non_empty_string (JStr p)) by now exists p.
    cbv zeta.
    destruct (stringify_error
                (body (detect_request this (JStr p) userAnonId metadata)))
      as [thrown|] eqn:S; cbn [snd List.length].
    + split; [lia | split].
      * split; [intros _; right; discriminate | reflexivity].
      * intros request [].
    + split; [lia | split].
      * split; [discriminate|]. intros [H|H]; contradiction.
      * intros request [<-|[]]. unfold detect_request, spread_if. simpl.
        destruct (toBoolean userAnonId), (toBoolean metadata);
          repeat split; reflexivity.
  - cbn [snd List.length]. split; [lia | split].
    + split; [|reflexivity]. intros _. left. intros H.
      apply nonEmptyString_passes in H as [s [H _]]. congruence.
    + intros request [].
Qed.

(** The three ways a call with a valid prompt goes: failing open, ending
    with the fields of a parsed 2xx body that is neither [null] nor
    [undefined], or never ending. *)
Lemma detectInjection_outcome (this : PromptCage) (fetch : Fetch)
      (prompt userAnonId metadata : JsValue) :
  non_empty_string prompt ->
  (exists message,
      fst (detectInjection this fetch prompt userAnonId metadata)
      = Fulfilled (fail_open message))
  \/ (exists response data,
         fetch (detect_request this prompt userAnonId metadata)
         = Fulfilled response
         /\ ok response = true
         /\ json response = Fulfilled data
         /\ data <> JNull /\ data <> JUndefined
         /\ fst (detectInjection this fetch prompt userAnonId metadata)
            = Fulfilled
                {| safe := or_else (body_field data "safe") (JBool false);
                   detectionId := or_else (body_field data "detectionId")
                                          (JStr EmptyString);
                   error := body_field data "error" |})
  \/ (stalled (fetch (detect_request this prompt userAnonId metadata))
      = true
      /\ fst (detectInjection this fetch prompt userAnonId metadata)
         = Pending).
Proof.
  intros Hp.
  destruct (stringify_error
              (body (detect_request this prompt userAnonId metadata)))
    as [thrown|] eqn:S.
  { left. rewrite (detectInjection_unsent _ _ _ _ _ _ Hp S).
    destruct (detectInjection_catch_open this thrown) as [m [-> _]].
    now exists m. }
  rewrite (detectInjection_sent _ _ _ _ _ Hp S).
  destruct (fetch (detect_request this prompt userAnonId metadata))
    as [response|err|] eqn:F; simpl.
  - unfold detectInjection_try; simpl.
    destruct (ok response) eqn:Ok; simpl.
    + destruct (json response) as [data|err|] eqn:J; simpl.
      * destruct data
          as [| | b | z | s | items | props | name message | thrown];
          try (right; left; exists response; eexists;
               repeat split; try eassumption; try discriminate;
               reflexivity);
          left; eexists; reflexivity.
      * left. destruct (detectInjection_catch_open this err) as [m [-> _]].
        now exists m.
      * right; right. now split.
    + destruct (text response) as [b|err|]; simpl.
      * left. eexists. reflexivity.
      * left. destruct (detectInjection_catch_open this err) as [m [-> _]].
        now exists m.
      * right; right. now split.
  - left. destruct (detectInjection_catch_open this err) as [m [-> _]].
    now exists m.
  - right; right. now split.
Qed.

(** X2. The promise of [detectInjection] is rejected exactly when the
    prompt is not a non-empty string: with a valid prompt no behaviour of
    the network (rejection, bad status, unreadable or [null] body) makes
    the call raise. *)
Theorem detectInjection_rejects_iff_invalid (this : PromptCage)
        (fetch : Fetch) (prompt userAnonId metadata : JsValue) :
  (exists e,
      fst (detectInjection this fetch prompt userAnonId metadata)
      = Rejected e)
  <-> ~ non_empty_string prompt.
Proof.
  split.
  - intros [e E] Hp.
    destruct (detectInjection_outcome this fetch prompt userAnonId metadata
                Hp)
      as [[m R]|[[response [data [_ [_ [_ [_ [_ R]]]]]]]|[_ R]]];
      rewrite R in E; discriminate E.
  - intros H. apply nonEmptyString_rejects in H.
    unfold detectInjection. rewrite H. now eexists.
Qed.

(** X3. A result that is not safe can only come from the server: when
    the [safe] field of the result is falsy, the call reached a 2xx
    response whose parsed body has an absent or falsy [safe] field, and
    the result's [safe] is the boolean [false]. *)
Theorem unsafe_only_from_parsed_body (this : PromptCage) (fetch : Fetch)
        (prompt userAnonId metadata : JsValue) (result : DetectionResponse) :
  non_empty_string prompt ->
  fst (detectInjection this fetch prompt userAnonId metadata)
  = Fulfilled result ->
  toBoolean (safe result) = false ->
  safe result = JBool false
  /\ exists response data,
      fetch (detect_request this prompt userAnonId metadata)
      = Fulfilled response
      /\ ok response = true
      /\ json response = Fulfilled data
      /\ toBoolean (body_field data "safe") = false.
Proof.
  intros Hp E Hs.
  destruct (detectInjection_outcome this fetch prompt userAnonId metadata Hp)
    as [[m R]|[[response [data [F [Ok [J [_ [_ R]]]]]]]|[_ R]]];
    rewrite R in E; try discriminate E; injection E as <-; simpl in Hs.
  - discriminate Hs.
  - unfold or_else in *.
    destruct (toBoolean (body_field data "safe")) eqn:T.
    + congruence.
    + split; [reflexivity|]. now exists response, data.
Qed.

Lemma unsafe_only_from_parsed_body_witness :
  exists response data,
    Fulfilled empty_body = Fulfilled response
    /\ ok response = true
    /\ json response = Fulfilled data
    /\ toBoolean (body_field data "safe") = false.
Proof.
  refine (proj2 (unsafe_only_from_parsed_body test_client
                   (fun _ => Fulfilled empty_body)
                   (JStr "test prompt") JUndefined JUndefined
                   {| safe := JBool false;
                      detectionId := JStr EmptyString;
                      error := JUndefined |} _ _ _)); try reflexivity.
  eexists. split; [reflexivity | discriminate].
Defined.

(** X4. Unless the exchange never ends, a call with a valid prompt
    delivers a result, and that result is well formed: [safe] is the
    boolean [false] or a truthy value, and [detectionId] is the empty
    string or a truthy value; neither is ever [null], [undefined], [0] or
    a missing field. *)
Theorem result_fields_never_nullish (this : PromptCage) (fetch : Fetch)
        (prompt userAnonId metadata : JsValue) :
  non_empty_string prompt ->
  stalled (fetch (detect_request this prompt userAnonId metadata)) = false ->
  exists result,
    fst (detectInjection this fetch prompt userAnonId metadata)
    = Fulfilled result
    /\ (safe result = JBool false \/ toBoolean (safe result) = true)
    /\ (detectionId result = JStr EmptyString
        \/ toBoolean (detectionId result) = true).
Proof.
  intros Hp Hs.
  destruct (detectInjection_outcome this fetch prompt userAnonId metadata Hp)
    as [[m R]|[[response [data [_ [_ [_ [_ [_ R]]]]]]]|[St _]]];
    [| |congruence];
    rewrite R; eexists; (split; [reflexivity|]); simpl.
  - split; [now right | now left].
  - unfold or_else.
    destruct (toBoolean (body_field data "safe")) eqn:Ts,
             (toBoolean (body_field data "detectionId")) eqn:Td; auto.
Qed.

Lemma result_fields_never_nullish_witness :
  exists result,
    fst (detectInjection test_client (fun _ => Fulfilled empty_body)
           (JStr "test prompt") JUndefined JUndefined)
    = Fulfilled result
    /\ (safe result = JBool false \/ toBoolean (safe result) = true)
    /\ (detectionId result = JStr EmptyString
        \/ toBoolean (detectionId result) = true).
Proof.
  apply (result_fields_never_nullish test_client
           (fun _ => Fulfilled empty_body)); [|reflexivity].
  eexists. split; [reflexivity | discriminate].
Defined.

(** X5. Whichever stage rejects ([fetch], [text()] of a non-2xx response,
    [json()] of a 2xx response), the message depends on the rejection
    only: an error named [AbortError] gives the wait-time text with the
    deadline the request was armed with, any other error object gives its
    own message, and a value that is not an error object gives
    "Unknown error occurred". (A stage rejects only for a request that
    was sent, that is, whose body was serialised.) *)
Theorem failure_message (this : PromptCage) (fetch : Fetch)
        (prompt userAnonId metadata e : JsValue) :
  non_empty_string prompt ->
  stringify_error (body (detect_request this prompt userAnonId metadata))
  = None ->
  rejection (fetch (detect_request this prompt userAnonId metadata))
  = Some e ->
  fst (detectInjection this fetch prompt userAnonId metadata)
  = Fulfilled
      {| safe := JBool true;
         detectionId := JStr EmptyString;
         error :=
           JStr match e with
                | JError name message =>
                    if (name =? "AbortError")%string then
                      "Request exceeded max wait time of "
                        ++ number_to_string
                             (signalDeadline
                                (detect_request this prompt userAnonId
                                                metadata))
                        ++ "ms"
                    else message
                | _ => "Unknown error occurred"
                end |}.
Proof.
  intros Hp S R. rewrite (detectInjection_sent _ _ _ _ _ Hp S).
  rewrite (detectInjection_try_rejection _ _ R). simpl.
  destruct e as [| | b | z | s | items | props | name message | thrown];
    try reflexivity.
  unfold detectInjection_catch. simpl.
  now destruct (name =? "AbortError")%string.
Qed.

Lemma failure_message_witness :
  fst (detectInjection test_client (fun _ => Fulfilled broken_body)
         (JStr "test prompt") JUndefined JUndefined)
  = Fulfilled {| safe := JBool true;
                 detectionId := JStr EmptyString;
                 error := JStr "invalid json response body" |}.
Proof.
  refine (failure_message test_client (fun _ => Fulfilled broken_body)
            (JStr "test prompt") JUndefined JUndefined
            (JError "FetchError" "invalid json response body") _ _ _);
    try reflexivity.
  eexists. split; [reflexivity | discriminate].
Defined.

(** ** Canary words: embedding, detection and generation *)

Lemma append_empty_r (s : string) : s ++ EmptyString = s.
Proof. induction s as [|c s IH]; simpl; [reflexivity | now rewrite IH]. Qed.

Lemma length_append (a b : string) :
  String.length (a ++ b) = (String.length a + String.length b)%nat.
Proof. induction a as [|x a IH]; simpl; [reflexivity | now rewrite IH]. Qed.

(** A format with the placeholder, filled with a word free of dollar
    signs, contains that word. *)
Lemma marker_holds_word (format word rest : string) :
  dollar_free word = true ->
  includes format "{canary_word}" = true ->
  occurs_in word (replace format "{canary_word}" word ++ rest).
Proof.
  intros Hd Hi. unfold includes in Hi. unfold replace.
  destruct (indexOf "{canary_word}" format) as [i|]; [|discriminate].
  cbv zeta. rewrite getSubstitution_plain by exact Hd.
  exists (take i format),
         (drop (i + String.length "{canary_word}") format ++ rest).
  now rewrite !append_assoc.
Qed.

Lemma leak_check_true (text word : string) :
  word <> EmptyString ->
  occurs_in word text ->
  isCanaryWordLeaked (JStr text) (JStr word)
  = Normal {| leaked := true; canaryWord := JStr word;
              checkError := None |}.
Proof.
  intros Hw Ho.
  assert (Ht : text <> EmptyString).
  { destruct Ho as [b [a E]]. intros ->.
    destruct b; [|discriminate]. destruct word; [now elim Hw | discriminate]. }
  unfold isCanaryWordLeaked, isCanaryWordLeaked_try.
  rewrite (nonEmptyString_string _ Ht), (nonEmptyString_string _ Hw).
  simpl. apply includes_occurs in Ho. now rewrite Ho.
Qed.

(** X6. Embedding then checking: with a supplied canary word free of
    dollar signs and a format that contains the placeholder, the prompt
    returned by [addCanaryWord] is reported as leaking that word by
    [isCanaryWordLeaked], the word is returned unchanged, and the random
    source is not touched. *)
Theorem embedded_canary_is_detected (this : PromptCage)
        (prompt word format : string) (rng : Entropy) :
  prompt <> EmptyString ->
  word <> EmptyString ->
  dollar_free word = true ->
  includes format "{canary_word}" = true ->
  exists promptWithCanary,
    addCanaryWord this (JStr prompt) (Some word) (Some format) rng
    = (Normal (promptWithCanary, word), rng)
    /\ isCanaryWordLeaked (JStr promptWithCanary) (JStr word)
       = Normal {| leaked := true; canaryWord := JStr word;
                   checkError := None |}.
Proof.
  intros Hp Hw Hd Hi.
  assert (Hf : format <> EmptyString) by (intros ->; discriminate Hi).
  unfold addCanaryWord. rewrite (nonEmptyString_string _ Hp).
  destruct (String.eqb_spec word EmptyString) as [E|_]; [contradiction|].
  unfold string_or.
  destruct (String.eqb_spec format EmptyString) as [E|_]; [contradiction|].
  cbv zeta. eexists. split; [reflexivity|].
  apply leak_check_true; [exact Hw|]. now apply marker_holds_word.
Qed.

Lemma embedded_canary_is_detected_witness :
  exists promptWithCanary,
    addCanaryWord test_client (JStr "Translate this text")
                  (Some "secret123") (Some "--- TOKEN: {canary_word} ---")
                  counting_rng
    = (Normal (promptWithCanary, "secret123"), counting_rng)
    /\ isCanaryWordLeaked (JStr promptWithCanary) (JStr "secret123")
       = Normal {| leaked := true; canaryWord := JStr "secret123";
                   checkError := None |}.
Proof.
  apply embedded_canary_is_detected; try discriminate; reflexivity.
Defined.

(** X7. Generating, embedding then checking: when no canary word (or an
    empty one) is supplied, the configured length is one the runtime can
    serve (positive, at most 536870888) and the
    format in force is the configured one and contains the placeholder,
    [addCanaryWord] returns a lowercase hexadecimal word of the configured
    length, the returned prompt is reported as leaking it, and exactly
    [ceil(length / 2)] bytes have been drawn from the random source. *)
Theorem generated_canary_is_detected (this : PromptCage) (prompt : string)
        (word : option string) (rng : Entropy) :
  prompt <> EmptyString ->
  word = None \/ word = Some EmptyString ->
  servable (defaultCanaryLength this) ->
  includes (defaultCanaryFormat this) "{canary_word}" = true ->
  exists promptWithCanary canary rng',
    addCanaryWord this (JStr prompt) word None rng
    = (Normal (promptWithCanary, canary), rng')
    /\ Z.of_nat (String.length canary) = defaultCanaryLength this
    /\ all_lower_hex canary = true
    /\ isCanaryWordLeaked (JStr promptWithCanary) (JStr canary)
       = Normal {| leaked := true; canaryWord := JStr canary;
                   checkError := None |}
    /\ (forall i,
           rng' i
           = rng (Z.to_nat (ceil_half (defaultCanaryLength this)) + i)%nat).
Proof.
  intros Hp Hw Hd Hi.
  destruct (generateCanaryWord_exact this None rng Hd) as [w [r [G [L X]]]].
  pose proof (generateCanaryWord_draw this None rng Hd) as D.
  rewrite G in D. injection D as Ew Er.
  assert (Nw : w <> EmptyString).
  { intros E. rewrite E in L. destruct Hd as [Hd _]. simpl in L. lia. }
  exists (replace (defaultCanaryFormat this) "{canary_word}" w
            ++ newline ++ prompt), w, r.
  split; [|split; [exact L | split; [exact X | split]]].
  - unfold addCanaryWord. rewrite (nonEmptyString_string _ Hp).
    destruct Hw as [-> | ->]; simpl; now rewrite G.
  - apply leak_check_true; [exact Nw|].
    apply marker_holds_word; [|exact Hi]. now apply lower_hex_dollar_free.
  - intros i. now rewrite Er.
Qed.

Lemma generated_canary_is_detected_witness :
  exists promptWithCanary canary rng',
    addCanaryWord test_client (JStr "Test prompt") None None counting_rng
    = (Normal (promptWithCanary, canary), rng')
    /\ Z.of_nat (String.length canary) = 8
    /\ all_lower_hex canary = true
    /\ isCanaryWordLeaked (JStr promptWithCanary) (JStr canary)
       = Normal {| leaked := true; canaryWord := JStr canary;
                   checkError := None |}
    /\ (forall i, rng' i = counting_rng (4 + i)%nat).
Proof.
  apply (generated_canary_is_detected test_client "Test prompt" None
           counting_rng); try discriminate; try reflexivity.
  - now left.
  - unfold servable, MAX_STRING_LENGTH. simpl. lia.
Defined.

Lemma replace_by_match (s pattern : string) : replace s pattern "$&" = s.
Proof.
  unfold replace. destruct (indexOf pattern s) as [i|] eqn:E; [|reflexivity].
  simpl. rewrite append_empty_r. symmetry. now apply indexOf_split.
Qed.

(** X8. The canary word [$&] is never embedded: whatever the format, the
    marker line is the format unchanged (the placeholder, if any, is
    replaced by itself), and the word is still returned as the second
    element. *)
Theorem match_pattern_canary_not_embedded (this : PromptCage)
        (prompt format : string) (rng : Entropy) :
  prompt <> EmptyString ->
  format <> EmptyString ->
  addCanaryWord this (JStr prompt) (Some "$&") (Some format) rng
  = (Normal (format ++ newline ++ prompt, "$&"), rng).
Proof.
  intros Hp Hf. unfold addCanaryWord. rewrite (nonEmptyString_string _ Hp).
  simpl. unfold string_or.
  destruct (String.eqb_spec format EmptyString) as [E|_]; [contradiction|].
  now rewrite replace_by_match.
Qed.

Lemma match_pattern_canary_not_embedded_witness :
  addCanaryWord test_client (JStr "Translate this text") (Some "$&")
                (Some "--- TOKEN: {canary_word} ---") counting_rng
  = (Normal ("--- TOKEN: {canary_word} ---" ++ newline
               ++ "Translate this text", "$&"), counting_rng).
Proof.
  apply match_pattern_canary_not_embedded; discriminate.
Defined.

(** X9. A configured canary length of -2 or less breaks generation, not
    construction: [generateCanaryWord()] and [addCanaryWord(prompt)] throw
    the range error of [crypto.randomBytes] without drawing a byte, while
    [addCanaryWord] with a supplied canary word still succeeds. *)
Theorem negative_length_is_refused (this : PromptCage) (prompt word : string)
        (format : option string) (rng : Entropy) :
  defaultCanaryLength this <= -2 ->
  prompt <> EmptyString ->
  word <> EmptyString ->
  generateCanaryWord this None rng
  = (Throw (range_error (ceil_half (defaultCanaryLength this))), rng)
  /\ addCanaryWord this (JStr prompt) None format rng
     = (Throw (range_error (ceil_half (defaultCanaryLength this))), rng)
  /\ exists promptWithCanary,
      addCanaryWord this (JStr prompt) (Some word) format rng
      = (Normal (promptWithCanary, word), rng).
Proof.
  intros Hd Hp Hw.
  assert (G : generateCanaryWord this None rng
              = (Throw (range_error (ceil_half (defaultCanaryLength this))),
                 rng)).
  { unfold generateCanaryWord, randomBytes. simpl argument_or.
    replace (ceil_half (defaultCanaryLength this) <? 0) with true;
      [reflexivity|].
    symmetry. apply Z.ltb_lt. unfold ceil_half.
    Z.div_mod_to_equations. lia. }
  split; [exact G | split].
  - unfold addCanaryWord. rewrite (nonEmptyString_string _ Hp).
    now rewrite G.
  - unfold addCanaryWord. rewrite (nonEmptyString_string _ Hp).
    destruct (String.eqb_spec word EmptyString) as [E|_]; [contradiction|].
    eexists. reflexivity.
Qed.

Lemma negative_length_is_refused_witness :
  generateCanaryWord negative_client None counting_rng
  = (Throw (range_error (-2)), counting_rng)
  /\ addCanaryWord negative_client (JStr "Test prompt") None None
                   counting_rng
     = (Throw (range_error (-2)), counting_rng)
  /\ exists promptWithCanary,
      addCanaryWord negative_client (JStr "Test prompt") (Some "abc") None
                    counting_rng
      = (Normal (promptWithCanary, "abc"), counting_rng).
Proof.
  apply (negative_length_is_refused negative_client "Test prompt" "abc"
           None counting_rng); [simpl; lia | discriminate | discriminate].
Defined.

(** *** The hexadecimal encoding loses nothing *)

Lemma hexValue_hexDigit (n : N) : (n < 16)%N -> hexValue (hexDigit n) = n.
Proof.
  intros H. destruct n as [|p]; [reflexivity|].
  do 4 (try (destruct p as [p|p|]; try reflexivity)); lia.
Qed.

Lemma byte_of_nibbles (a b : byte) :
  hexDigit (Byte.to_N a / 16) = hexDigit (Byte.to_N b / 16) ->
  hexDigit (Byte.to_N a mod 16) = hexDigit (Byte.to_N b mod 16) ->
  a = b.
Proof.
  intros Hh Hl.
  pose proof (Byte.to_N_bounded a) as Ba.
  pose proof (Byte.to_N_bounded b) as Bb.
  apply (f_equal hexValue) in Hh, Hl.
  rewrite !hexValue_hexDigit in Hh, Hl;
    try (apply N.mod_lt; discriminate);
    try (apply N.Div0.div_lt_upper_bound; lia).
  assert (E : Byte.to_N a = Byte.to_N b).
  { rewrite (N.div_mod (Byte.to_N a) 16), (N.div_mod (Byte.to_N b) 16)
      by discriminate. now rewrite Hh, Hl. }
  apply (f_equal Byte.of_N) in E. rewrite !Byte.of_to_N in E.
  now injection E.
Qed.

Lemma toHex_injective (a b : list byte) : toHex a = toHex b -> a = b.
Proof.
  revert b; induction a as [|x a IH]; intros [|y b] H;
    try reflexivity; try discriminate.
  simpl in H. injection H as Hh Hl Ht.
  f_equal; [now apply byte_of_nibbles | now apply IH].
Qed.

Lemma take_all (s : string) : take (String.length s) s = s.
Proof. induction s as [|c s IH]; simpl; [reflexivity | now rewrite IH]. Qed.

(** X10. For an even positive length [2k] that the runtime can serve
    (at most 536870888), the canary word determines the [k] random bytes
    it was cut from: two random sources give the same word exactly when
    they agree on their first [k] bytes. No two different draws collide
    in the encoding. *)
Theorem even_canary_words_equal_iff_bytes_equal (this : PromptCage)
        (length : option JsNumber) (k : nat) (rng1 rng2 : Entropy) :
  (0 < k)%nat ->
  2 * Z.of_nat k <= MAX_STRING_LENGTH ->
  argument_or length (defaultCanaryLength this) = 2 * Z.of_nat k ->
  fst (generateCanaryWord this length rng1)
  = fst (generateCanaryWord this length rng2)
  <-> (forall i, (i < k)%nat -> rng1 i = rng2 i).
Proof.
  intros Hk Hmax HL.
  assert (Hpos : servable (argument_or length (defaultCanaryLength this)))
    by (unfold servable; lia).
  rewrite !(generateCanaryWord_draw _ _ _ Hpos). simpl fst. rewrite HL.
  assert (Hc : Z.to_nat (ceil_half (2 * Z.of_nat k)) = k).
  { unfold ceil_half. Z.div_mod_to_equations. lia. }
  rewrite Hc.
  assert (Full : forall rng : Entropy,
             take (Z.to_nat (2 * Z.of_nat k)) (toHex (map rng (seq 0 k)))
             = toHex (map rng (seq 0 k))).
  { intros rng.
    replace (Z.to_nat (2 * Z.of_nat k))
      with (String.length (toHex (map rng (seq 0 k)))).
    - apply take_all.
    - rewrite toHex_length, length_map, length_seq. lia. }
  rewrite !Full. split.
  - intros E i Hi. injection E as E. apply toHex_injective in E.
    apply (proj1 (@map_ext_in_iff _ _ rng1 rng2 (seq 0 k)) E).
    apply in_seq. lia.
  - intros E. do 2 f_equal. apply map_ext_in.
    intros i Hi. apply E. apply in_seq in Hi. lia.
Qed.

Lemma even_canary_words_equal_iff_bytes_equal_witness :
  fst (generateCanaryWord test_client None counting_rng)
  = fst (generateCanaryWord test_client None
           (fun i => counting_rng (96 + i)%nat))
  <-> (forall i, (i < 4)%nat ->
                 counting_rng i = counting_rng (96 + i)%nat).
Proof.
  apply (even_canary_words_equal_iff_bytes_equal test_client None 4);
    [lia | unfold MAX_STRING_LENGTH; lia | reflexivity].
Defined.

(** *** Line structure *)

Lemma count_char_append (c : ascii) (a b : string) :
  count_char c (a ++ b) = (count_char c a + count_char c b)%nat.
Proof.
  induction a as [|d a IH]; simpl; [reflexivity|]. rewrite IH. lia.
Qed.

Lemma lower_hex_no_newline (s : string) :
  all_lower_hex s = true -> count_char (ascii_of_nat 10) s = O.
Proof.
  induction s as [|c s IH]; simpl; [reflexivity|].
  intros H. apply andb_prop in H as [Hc Hs]. rewrite (IH Hs).
  destruct (Ascii.eqb_spec c (ascii_of_nat 10)) as [->|];
    [discriminate | reflexivity].
Qed.

(** X11. With the default format and a generated canary word of a
    configured length the runtime can serve (positive, at most
    536870888), the
    returned prompt has exactly one line more than the original prompt:
    the marker line comes first, and a single-line prompt gives exactly
    two lines. *)
Theorem generated_marker_is_one_line (this : PromptCage) (prompt : string)
        (rng : Entropy) :
  prompt <> EmptyString ->
  servable (defaultCanaryLength this) ->
  defaultCanaryFormat this = "<!-- {canary_word} -->" ->
  exists promptWithCanary canary rng' rest,
    addCanaryWord this (JStr prompt) None None rng
    = (Normal (promptWithCanary, canary), rng')
    /\ promptWithCanary = "<!-- " ++ rest
    /\ count_char (ascii_of_nat 10) promptWithCanary
       = S (count_char (ascii_of_nat 10) prompt).
Proof.
  intros Hp Hd Hf.
  destruct (addCanaryWord_generated this prompt rng Hp Hd Hf)
    as [w [r [A [_ [X _]]]]].
  exists (("<!-- " ++ w ++ " -->") ++ newline ++ prompt), w, r,
         ((w ++ " -->") ++ newline ++ prompt).
  split; [exact A | split].
  - now rewrite !append_assoc.
  - rewrite !count_char_append, (lower_hex_no_newline _ X). reflexivity.
Qed.

Lemma generated_marker_is_one_line_witness :
  exists promptWithCanary canary rng' rest,
    addCanaryWord test_client (JStr "What is the capital of France?")
                  None None counting_rng
    = (Normal (promptWithCanary, canary), rng')
    /\ promptWithCanary = "<!-- " ++ rest
    /\ count_char (ascii_of_nat 10) promptWithCanary = 1%nat.
Proof.
  apply (generated_marker_is_one_line test_client
           "What is the capital of France?" counting_rng);
    [discriminate | unfold servable, MAX_STRING_LENGTH; simpl; lia
    | reflexivity].
Defined.

(** ** Construction: where the key comes from and what a client holds *)

Lemma string_or_present (v : option string) (d k : string) :
  v = Some k -> k <> EmptyString -> string_or v d = k.
Proof.
  intros -> H. simpl.
  now destruct (String.eqb_spec k EmptyString) as [E|_].
Qed.

Lemma string_or_absent (v : option string) (d : string) :
  ~ present v -> string_or v d = d.
Proof.
  intros H. destruct v as [s|]; [|reflexivity]. simpl.
  destruct (String.eqb_spec s EmptyString) as [E|N]; [reflexivity|].
  elim H. now exists s.
Qed.

(** X12. Resolution of the API key: a non-empty [apiKey] option is used
    whatever the environment holds; otherwise a non-empty
    [PROMPTCAGE_API_KEY] is used; and construction throws
    "API key is required..." exactly when neither is given. *)
Theorem api_key_resolution (options : option PromptCageOptions)
        (env : string -> option string) :
  (forall key,
      optional options opt_apiKey = Some key -> key <> EmptyString ->
      exists this, constructor options env = Normal this
                   /\ apiKey this = key)
  /\ (forall key,
         ~ present (optional options opt_apiKey) ->
         env "PROMPTCAGE_API_KEY" = Some key -> key <> EmptyString ->
         exists this, constructor options env = Normal this
                      /\ apiKey this = key)
  /\ (constructor options env = Throw api_key_required
      <-> ~ present (optional options opt_apiKey)
          /\ ~ present (env "PROMPTCAGE_API_KEY")).
Proof.
  split; [|split].
  - intros key Ho Hk. unfold constructor.
    rewrite (string_or_present _ _ _ Ho Hk).
    destruct (String.eqb_spec key EmptyString) as [E|_]; [contradiction|].
    eexists. split; reflexivity.
  - intros key Ho He Hk. unfold constructor.
    rewrite (string_or_absent _ _ Ho), (string_or_present _ _ _ He Hk).
    destruct (String.eqb_spec key EmptyString) as [E|_]; [contradiction|].
    eexists. split; reflexivity.
  - unfold constructor. split.
    + destruct (string_or _ _ =? EmptyString)%string eqn:E; [|discriminate].
      intros _. apply String.eqb_eq in E. split.
      * intros [k [Ho Hk]]. rewrite (string_or_present _ _ _ Ho Hk) in E.
        contradiction.
      * intros [k [He Hk]]. unfold string_or at 1 in E.
        destruct (optional options opt_apiKey) as [s|].
        -- destruct (String.eqb_spec s EmptyString) as [_|N];
             [|contradiction].
           rewrite (string_or_present _ _ _ He Hk) in E. contradiction.
        -- rewrite (string_or_present _ _ _ He Hk) in E. contradiction.
    + intros [Ho He].
      now rewrite (string_or_absent _ _ Ho), (string_or_absent _ _ He).
Qed.

Lemma api_key_resolution_witness :
  (exists this,
      constructor (Some (key_only "test-api-key")) (env_with "env-key")
      = Normal this
      /\ apiKey this = "test-api-key")
  /\ (exists this,
         constructor None (env_with "env-key") = Normal this
         /\ apiKey this = "env-key").
Proof.
  destruct (api_key_resolution (Some (key_only "test-api-key"))
              (env_with "env-key")) as [A _].
  destruct (api_key_resolution None (env_with "env-key")) as [_ [B _]].
  split.
  - apply A; [reflexivity | discriminate].
  - apply B; [|reflexivity | discriminate].
    intros [s [E _]]. discriminate E.
Defined.

(** X13. What every constructed client holds: a non-empty API key, the
    fixed base URL, a deadline and a canary length different from zero,
    and a non-empty canary format. The format is not checked for the
    placeholder: any non-empty configured format is kept as it is. *)
Theorem constructed_client_invariant (options : option PromptCageOptions)
        (env : string -> option string) (this : PromptCage) :
  constructor options env = Normal this ->
  apiKey this <> EmptyString
  /\ baseUrl this = "https://promptcage.com/api/v1"
  /\ maxWaitTime this <> 0
  /\ defaultCanaryLength this <> 0
  /\ defaultCanaryFormat this <> EmptyString
  /\ (forall format,
         optional options opt_defaultCanaryFormat = Some format ->
         format <> EmptyString ->
         defaultCanaryFormat this = format).
Proof.
  unfold constructor.
  destruct (String.eqb_spec
              (string_or (optional options opt_apiKey)
                 (string_or (env "PROMPTCAGE_API_KEY") EmptyString))
              EmptyString) as [E|N]; [discriminate|].
  intros [= <-]. simpl.
  split; [exact N | split; [reflexivity | split; [|split; [|split]]]].
  - now apply number_or_nonzero.
  - now apply number_or_nonzero.
  - unfold string_or.
    destruct (optional options opt_defaultCanaryFormat) as [f|];
      [|discriminate].
    destruct (String.eqb_spec f EmptyString); [discriminate | assumption].
  - intros format Ho Hf. now apply string_or_present.
Qed.

Lemma constructed_client_invariant_witness :
  apiKey test_client <> EmptyString
  /\ baseUrl test_client = "https://promptcage.com/api/v1"
  /\ maxWaitTime test_client <> 0
  /\ defaultCanaryLength test_client <> 0
  /\ defaultCanaryFormat test_client <> EmptyString
  /\ (forall format,
         optional (Some (key_only "test-api-key")) opt_defaultCanaryFormat
         = Some format ->
         format <> EmptyString ->
         defaultCanaryFormat test_client = format).
Proof.
  exact (constructed_client_invariant (Some (key_only "test-api-key"))
           no_env test_client eq_refl).
Defined.

(** X14. The two releases of the constructor agree on an options object:
    the first release succeeds exactly when the current one does, with
    the same API key and deadline. Its bare-string form behaves as the
    options form with that key and an empty environment: the deadline is
    1000 and [PROMPTCAGE_API_KEY] is not consulted, so an empty string
    fails even when the variable is set. *)
Theorem first_release_agrees (options : option PromptCageOptions)
        (env : string -> option string) (key : string) :
  V1.constructor (V1.Options options) env
  = match constructor options env with
    | Normal this => Normal (apiKey this, maxWaitTime this)
    | Throw e => Throw e
    end
  /\ V1.constructor (V1.KeyString key) env
     = V1.constructor (V1.Options (Some (key_only key))) no_env
  /\ V1.constructor (V1.KeyString EmptyString) env = Throw api_key_required.
Proof.
  split; [|split].
  - unfold V1.constructor, constructor.
    now destruct (string_or _ _ =? EmptyString)%string.
  - unfold V1.constructor, string_or, optional, no_env. simpl.
    destruct (key =? EmptyString)%string eqn:E; simpl;
      [reflexivity | now rewrite E].
  - reflexivity.
Qed.

(** ** Leak check: surrounding text and sizes *)

(** X15. Text around a leaking completion does not hide the leak: when
    the check reports a leak in a completion, it reports it in every text
    that contains that completion. *)
Theorem leak_survives_surrounding_text (word : JsValue)
        (before after text : string) (result : CanaryLeakageResult) :
  isCanaryWordLeaked (JStr text) word = Normal result ->
  leaked result = true ->
  isCanaryWordLeaked (JStr (before ++ text ++ after)) word
  = Normal {| leaked := true; canaryWord := word; checkError := None |}.
Proof.
  intros E L. unfold isCanaryWordLeaked, isCanaryWordLeaked_try in E.
  destruct (nonEmptyString (JStr text)) as [c|] eqn:Ec.
  - apply nonEmptyString_sound in Ec as [[= <-] Hc].
    destruct (nonEmptyString word) as [w|] eqn:Ew.
    + apply nonEmptyString_sound in Ew as [-> Hw].
      simpl in E. injection E as <-. simpl in L.
      apply leak_check_true; [exact Hw|].
      apply includes_occurs in L as [b [a ->]].
      exists (before ++ b), (a ++ after). now rewrite !append_assoc.
    + simpl in E. injection E as <-. discriminate L.
  - simpl in E. injection E as <-. discriminate L.
Qed.

Lemma leak_survives_surrounding_text_witness :
  isCanaryWordLeaked (JStr ("The answer is: " ++ "see test123" ++ "."))
                     (JStr "test123")
  = Normal {| leaked := true; canaryWord := JStr "test123";
              checkError := None |}.
Proof.
  exact (leak_survives_surrounding_text (JStr "test123")
           "The answer is: " "." "see test123"
           {| leaked := true; canaryWord := JStr "test123";
              checkError := None |} eq_refl eq_refl).
Defined.

(** X16. Sizes: a completion shorter than the canary word is never
    reported as leaking, and a non-empty canary word checked against
    itself always is. *)
Theorem leak_check_sizes (text word : string) :
  ((String.length text < String.length word)%nat ->
   exists result,
     isCanaryWordLeaked (JStr text) (JStr word) = Normal result
     /\ leaked result = false)
  /\ (word <> EmptyString ->
      isCanaryWordLeaked (JStr word) (JStr word)
      = Normal {| leaked := true; canaryWord := JStr word;
                  checkError := None |}).
Proof.
  split.
  - intros Hlen.
    unfold isCanaryWordLeaked, isCanaryWordLeaked_try.
    destruct (nonEmptyString (JStr text)) as [c|] eqn:Ec;
      [|eexists; split; reflexivity].
    apply nonEmptyString_sound in Ec as [[= <-] Hc].
    destruct (nonEmptyString (JStr word)) as [w|] eqn:Ew;
      [|eexists; split; reflexivity].
    apply nonEmptyString_sound in Ew as [[= <-] Hw].
    eexists. split; [reflexivity|]. simpl.
    destruct (includes text word) eqn:I; [|reflexivity].
    apply includes_occurs in I as [b [a E]].
    rewrite E, !length_append in Hlen. lia.
  - intros Hw. apply leak_check_true; [exact Hw|].
    exists EmptyString, EmptyString. simpl. now rewrite append_empty_r.
Qed.

Lemma leak_check_sizes_witness :
  (exists result,
      isCanaryWordLeaked (JStr "test") (JStr "test123") = Normal result
      /\ leaked result = false)
  /\ isCanaryWordLeaked (JStr "test123") (JStr "test123")
     = Normal {| leaked := true; canaryWord := JStr "test123";
                 checkError := None |}.
Proof.
  destruct (leak_check_sizes "test" "test123") as [A _].
  destruct (leak_check_sizes "test123" "test123") as [_ B].
  split; [apply A; simpl; lia | apply B; discriminate].
Defined.
